(** * Workflow builder: validation, run gate, history and graph edits

    A shallow embedding of the graph core of the workflow builder:

    - [WorkflowValidation.tsx]: the [issues] computation (no-trigger,
      isolation, dead-branch, cycle and disabled-critical rules) and the
      derived severity counts;
    - the [WorkflowBuilder] component: [saveToHistory], [undo], [redo],
      [onConnect], [onDeleteNode], [onDuplicateNode], [onApplyTemplate],
      [deleteSelectedNodes], [executeWorkflow], [handleStepExecution],
      [handleSimulateNode], [clearExecution], [onToggleNodeEnable].

    React state is modelled by explicit state passing.  A callback is a
    function of two states: the render whose values its closure captured
    ([r]) and the state its queued updaters are applied to ([s]).  A
    callback whose dependency list is complete always runs with [r = s]
    (see [fire]). *)

From stdpp Require Import gmap strings list relations.
From Stdlib Require Import ZArith Lia DecimalString.

Set Default Proof Using "Type".
Set Warnings "-clear-no-such-hyp".

(** ** Data model *)

(** [status] of a node, as declared by [BaseNodeProps]. *)
Inductive RuntimeStatus :=
  | StIdle | StRunning | StSuccess | StError | StPaused | StDisabled | StWarning.

#[global] Instance RuntimeStatus_eq_dec : EqDecision RuntimeStatus.
Proof. solve_decision. Defined.

(** Canvas coordinates.  The canvas snaps to a 15x15 grid; coordinates are
    kept as integers. *)
Record XY := { x : Z; y : Z }.

#[global] Instance XY_eq_dec : EqDecision XY.
Proof. solve_decision. Defined.

Module Node.
(** [node.data]: every field is optional in the source ([data: any]). *)
Record Data := {
  label : option string;
  config : list (string * string);
  status : option RuntimeStatus;
  enabled : option bool;
  lastExecuted : option Z;
  executionTime : option Z;
  locked : option bool
}.

Record t := {
  id : string;
  type : option string;
  position : XY;
  draggable : option bool;
  data : Data
}.

#[global] Instance Data_eq_dec : EqDecision Data.
Proof. solve_decision. Defined.
#[global] Instance t_eq_dec : EqDecision t.
Proof. solve_decision. Defined.
End Node.

Module Edge.
Record t := {
  id : string;
  source : string;
  target : string;
  sourceHandle : option string;
  targetHandle : option string
}.

#[global] Instance t_eq_dec : EqDecision t.
Proof. solve_decision. Defined.
End Edge.

Abbreviation Node := Node.t.
Abbreviation Edge := Edge.t.

Inductive IssueType := IssueError | IssueWarning | IssueInfo.

#[global] Instance IssueType_eq_dec : EqDecision IssueType.
Proof. solve_decision. Defined.

Module Issue.
Record t := {
  id : string;
  type : IssueType;
  message : string;
  nodeId : option string;
  edgeId : option string
}.

#[global] Instance t_eq_dec : EqDecision t.
Proof. solve_decision. Defined.
End Issue.

Abbreviation ValidationIssue := Issue.t.

(** A graph as the validation panel receives it: the two props. *)
Record Graph := { g_nodes : list Node; g_edges : list Edge }.

(** ** JavaScript helpers *)

(** [node.type === k] *)
Definition type_is (k : string) (n : Node) : bool :=
  match Node.type n with
  | Some t => String.eqb t k
  | None => false
  end.

(** The double-quote character of the message templates. *)
Definition dquote : string :=
  String (Ascii.Ascii false true false false false true false false) "".

(** [`${v}`] for an optional string: [undefined] prints as such. *)
Definition tmpl (v : option string) : string :=
  match v with
  | Some s => s
  | None => "undefined"
  end.

(** [`${n}`] for an integral number. *)
Definition tmpl_num (n : Z) : string := NilZero.string_of_int (Z.to_int n).

(** [node.data?.label || node.id]: an empty label is falsy. *)
Definition label_or_id (n : Node) : string :=
  match Node.label (Node.data n) with
  | Some l => if String.eqb l "" then Node.id n else l
  | None => Node.id n
  end.

(** [data.enabled === false] *)
Definition enabled_is_false (n : Node) : bool :=
  match Node.enabled (Node.data n) with
  | Some false => true
  | _ => false
  end.

(** [!data.enabled]: [undefined] is falsy. *)
Definition not_enabled (n : Node) : bool :=
  match Node.enabled (Node.data n) with
  | Some true => false
  | _ => true
  end.

(** ** WorkflowValidation: the [issues] computation *)

Definition noTriggerIssue : ValidationIssue :=
  {| Issue.id := "no-trigger";
     Issue.type := IssueError;
     Issue.message :=
       "Workflow has no trigger nodes. Add at least one trigger to start execution.";
     Issue.nodeId := None;
     Issue.edgeId := None |}.

Definition isolatedIssue (n : Node) : ValidationIssue :=
  {| Issue.id := "isolated-" +:+ Node.id n;
     Issue.type := IssueWarning;
     Issue.message :=
       "Node " +:+ dquote +:+ label_or_id n +:+ dquote
       +:+ " is not connected to the workflow.";
     Issue.nodeId := Some (Node.id n);
     Issue.edgeId := None |}.

Definition conditionIssue (n : Node) : ValidationIssue :=
  {| Issue.id := "condition-no-output-" +:+ Node.id n;
     Issue.type := IssueWarning;
     Issue.message :=
       "Condition node " +:+ dquote +:+ label_or_id n +:+ dquote
       +:+ " has no outgoing connections.";
     Issue.nodeId := Some (Node.id n);
     Issue.edgeId := None |}.

Definition cycleIssue (n : Node) : ValidationIssue :=
  {| Issue.id := "cycle-" +:+ Node.id n;
     Issue.type := IssueError;
     Issue.message :=
       "Circular dependency detected in workflow. This will cause infinite loops.";
     Issue.nodeId := Some (Node.id n);
     Issue.edgeId := None |}.

Definition disabledCriticalIssue (n : Node) : ValidationIssue :=
  {| Issue.id := "disabled-critical-" +:+ Node.id n;
     Issue.type := IssueInfo;
     Issue.message :=
       "Critical node " +:+ dquote +:+ label_or_id n +:+ dquote
       +:+ " is disabled.";
     Issue.nodeId := Some (Node.id n);
     Issue.edgeId := None |}.

(** Rule 1: [triggerNodes.length === 0]. *)
Definition triggerNodes (nodes : list Node) : list Node :=
  List.filter (type_is "trigger") nodes.

Definition noTriggerIssues (nodes : list Node) : list ValidationIssue :=
  match triggerNodes nodes with
  | [] => [noTriggerIssue]
  | _ :: _ => []
  end.

(** Rule 2: [connectedNodeIds], the set of all edge endpoints. *)
Definition connectedNodeIds (edges : list Edge) : gset string :=
  list_to_set (map Edge.source edges ++ map Edge.target edges).

Definition isolated (edges : list Edge) (n : Node) : bool :=
  negb (bool_decide (Node.id n ∈ connectedNodeIds edges))
  && negb (type_is "trigger" n).

Definition isolatedIssues (nodes : list Node) (edges : list Edge)
  : list ValidationIssue :=
  map isolatedIssue (List.filter (isolated edges) nodes).

(** Rule 3: condition nodes without outgoing edges. *)
Definition outgoingEdges (edges : list Edge) (nodeId : string) : list Edge :=
  List.filter (fun e => String.eqb (Edge.source e) nodeId) edges.

Definition deadCondition (edges : list Edge) (n : Node) : bool :=
  Nat.eqb (length (outgoingEdges edges (Node.id n))) 0.

Definition conditionIssues (nodes : list Node) (edges : list Edge)
  : list ValidationIssue :=
  map conditionIssue
      (List.filter (deadCondition edges) (List.filter (type_is "condition") nodes)).

(** Rule 4: the cycle scan.  [visited] and [recursionStack] are the two
    sets the closure [hasCycle] mutates; they are threaded explicitly. *)
Record DfsState := {
  visited : gset string;
  recursionStack : gset string
}.

Definition dfs_init : DfsState := {| visited := ∅; recursionStack := ∅ |}.

(** The [for (const edge of outgoingEdges)] loop of [hasCycle]; [call] is
    the recursive call. *)
Fixpoint forOutgoing (call : string -> DfsState -> option (bool * DfsState))
    (es : list Edge) (st : DfsState) : option (bool * DfsState) :=
  match es with
  | [] => Some (false, st)
  | e :: es' =>
      match call (Edge.target e) st with
      | None => None
      | Some (true, st') => Some (true, st')
      | Some (false, st') => forOutgoing call es' st'
      end
  end.

(** [hasCycle(nodeId)].  The recursion of the source is bounded by the
    number of unvisited ids; [fuel] bounds the recursion depth and [None]
    means it ran out ([hasCycle_total] shows it does not). *)
Fixpoint hasCycle (fuel : nat) (edges : list Edge) (nodeId : string)
    (st : DfsState) : option (bool * DfsState) :=
  match fuel with
  | O => None
  | S fuel' =>
      if bool_decide (nodeId ∈ recursionStack st) then Some (true, st)
      else if bool_decide (nodeId ∈ visited st) then Some (false, st)
      else
        let st1 := {| visited := {[nodeId]} ∪ visited st;
                      recursionStack := {[nodeId]} ∪ recursionStack st |} in
        match forOutgoing (hasCycle fuel' edges) (outgoingEdges edges nodeId) st1 with
        | None => None
        | Some (true, st') => Some (true, st')
        | Some (false, st') =>
            Some (false, {| visited := visited st';
                            recursionStack := recursionStack st' ∖ {[nodeId]} |})
        end
  end.

(** The [for (const node of nodes)] loop with its [break]. *)
Fixpoint cycleScan (fuel : nat) (edges : list Edge) (ns : list Node)
    (st : DfsState) : option (list ValidationIssue) :=
  match ns with
  | [] => Some []
  | n :: ns' =>
      match hasCycle fuel edges (Node.id n) st with
      | None => None
      | Some (true, _) => Some [cycleIssue n]
      | Some (false, st') => cycleScan fuel edges ns' st'
      end
  end.

(** Every id the scan can reach is a node id or an edge target. *)
Definition dfsFuel (nodes : list Node) (edges : list Edge) : nat :=
  S (length nodes + length edges).

Definition cycleIssues (nodes : list Node) (edges : list Edge)
  : option (list ValidationIssue) :=
  cycleScan (dfsFuel nodes edges) edges nodes dfs_init.

(** Rule 5: disabled trigger or condition nodes. *)
Definition disabledCritical (n : Node) : bool :=
  enabled_is_false n && (type_is "trigger" n || type_is "condition" n).

Definition disabledCriticalIssues (nodes : list Node) : list ValidationIssue :=
  map disabledCriticalIssue (List.filter disabledCritical nodes).

(** The whole memoised computation, in the order of the source. *)
Definition validate (g : Graph) : option (list ValidationIssue) :=
  match cycleIssues (g_nodes g) (g_edges g) with
  | None => None
  | Some cyc =>
      Some (noTriggerIssues (g_nodes g)
            ++ isolatedIssues (g_nodes g) (g_edges g)
            ++ conditionIssues (g_nodes g) (g_edges g)
            ++ cyc
            ++ disabledCriticalIssues (g_nodes g))
  end.

Definition issue_has_type (t : IssueType) (i : ValidationIssue) : bool :=
  bool_decide (Issue.type i = t).

Definition errorCount (issues : list ValidationIssue) : nat :=
  length (List.filter (issue_has_type IssueError) issues).
Definition warningCount (issues : list ValidationIssue) : nat :=
  length (List.filter (issue_has_type IssueWarning) issues).
Definition infoCount (issues : list ValidationIssue) : nat :=
  length (List.filter (issue_has_type IssueInfo) issues).

(** Issues are told apart by severity and by the prefix of their id. *)
Definition is_cycle_error (i : ValidationIssue) : bool :=
  issue_has_type IssueError i && String.prefix "cycle-" (Issue.id i).

Definition is_isolation_warning (i : ValidationIssue) : bool :=
  issue_has_type IssueWarning i && String.prefix "isolated-" (Issue.id i).

(** ** JavaScript arrays *)

(** A relative index of [Array.prototype.slice]: negative counts from the
    end, and the result is clamped to the array. *)
Definition rel_index (len i : Z) : Z :=
  if (i <? 0)%Z then Z.max (len + i) 0 else Z.min i len.

(** [l.slice(start, end)] *)
Definition slice {A} (l : list A) (start end_ : Z) : list A :=
  let len := Z.of_nat (length l) in
  let k := rel_index len start in
  let f := rel_index len end_ in
  take (Z.to_nat (f - k)) (drop (Z.to_nat k) l).

(** [l.slice(start)] *)
Definition slice_from {A} (l : list A) (start : Z) : list A :=
  slice l start (Z.of_nat (length l)).

(** [l[i]]: [undefined] outside the array. *)
Definition index {A} (l : list A) (i : Z) : option A :=
  if (i <? 0)%Z then None else l !! Z.to_nat i.

(** [s.charAt(0).toUpperCase() + s.slice(1)], on ASCII letters. *)
Definition upper (c : Ascii.ascii) : Ascii.ascii :=
  let n := Ascii.nat_of_ascii c in
  if (97 <=? n)%nat && (n <=? 122)%nat then Ascii.ascii_of_nat (n - 32) else c.

Definition capitalize (s : string) : string :=
  match s with
  | EmptyString => EmptyString
  | String c rest => String (upper c) rest
  end.

(** What a callback does: it returns, or an exception escapes it. *)
Inductive JsError := TypeError (msg : string).

Inductive Outcome (A : Type) :=
  | Done (a : A)
  | Throws (e : JsError).
Arguments Done {A} a.
Arguments Throws {A} e.

(** ** The builder state *)

(** Values the engine hands back ([any] in the source). *)
Inductive JsValue :=
  | JsUndefined
  | JsNull
  | JsBool (b : bool)
  | JsNum (n : Z)
  | JsStr (s : string)
  | JsObj (fields : list JsField)
with JsField :=
  | Field (key : string) (value : JsValue).

(** The result of one node execution; the builder reads [executionTime]. *)
Record ExecResult := {
  res_output : JsValue;
  res_executionTime : option Z
}.

Inductive LogType := LogInfo | LogError | LogSuccess | LogWarning.

Record LogEntry := {
  log_id : string;
  log_message : string;
  log_type : LogType;
  log_timestamp : Z;
  log_nodeId : option string
}.

Inductive ExecutionMode := Parallel | Sequential.
Inductive ErrorHandling := Stop | Continue | Retry.
Inductive LogLevel := LvDebug | LvInfo | LvWarn | LvError.

Record Settings := {
  name : string;
  description : string;
  timeout : Z;
  retryAttempts : Z;
  enableLogging : bool;
  logLevel : LogLevel;
  enableValidation : bool;
  autoSave : bool;
  executionMode : ExecutionMode;
  errorHandling : ErrorHandling
}.

(** A history entry [{ nodes, edges }]. *)
Module Snapshot.
Record t := { nodes : list Node; edges : list Edge }.

#[global] Instance t_eq_dec : EqDecision t.
Proof. solve_decision. Defined.
End Snapshot.

Abbreviation Snapshot := Snapshot.t.

(** The [useState] cells of [WorkflowBuilder] the graph core reads or writes. *)
Record Builder := {
  nodes : list Node;
  edges : list Edge;
  selectedNode : option Node;
  selectedNodes : list string;
  isExecuting : bool;
  executionResults : gmap string ExecResult;
  executionLog : list LogEntry;
  executionCount : Z;
  executionFlow : list string;
  history : list Snapshot;
  historyIndex : Z;
  workflowSettings : Settings;
  currentExecutingNode : option string;
  totalNodes : Z;
  completedNodes : Z
}.

(** The state setters.  Each takes an updater, as [setX(prev => ...)] does;
    [setX(v)] is the constant updater. *)
Definition setNodes (f : list Node -> list Node) (s : Builder) : Builder :=
  {| nodes := f (nodes s); edges := edges s; selectedNode := selectedNode s;
     selectedNodes := selectedNodes s; isExecuting := isExecuting s;
     executionResults := executionResults s; executionLog := executionLog s;
     executionCount := executionCount s; executionFlow := executionFlow s;
     history := history s; historyIndex := historyIndex s; workflowSettings
     := workflowSettings s; currentExecutingNode := currentExecutingNode s;
     totalNodes := totalNodes s; completedNodes := completedNodes s |}.

Definition setEdges (f : list Edge -> list Edge) (s : Builder) : Builder :=
  {| nodes := nodes s; edges := f (edges s); selectedNode := selectedNode s;
     selectedNodes := selectedNodes s; isExecuting := isExecuting s;
     executionResults := executionResults s; executionLog := executionLog s;
     executionCount := executionCount s; executionFlow := executionFlow s;
     history := history s; historyIndex := historyIndex s; workflowSettings
     := workflowSettings s; currentExecutingNode := currentExecutingNode s;
     totalNodes := totalNodes s; completedNodes := completedNodes s |}.

Definition setSelectedNode (f : option Node -> option Node) (s : Builder) : Builder :=
  {| nodes := nodes s; edges := edges s; selectedNode := f (selectedNode s);
     selectedNodes := selectedNodes s; isExecuting := isExecuting s;
     executionResults := executionResults s; executionLog := executionLog s;
     executionCount := executionCount s; executionFlow := executionFlow s;
     history := history s; historyIndex := historyIndex s; workflowSettings
     := workflowSettings s; currentExecutingNode := currentExecutingNode s;
     totalNodes := totalNodes s; completedNodes := completedNodes s |}.

Definition setSelectedNodes (f : list string -> list string) (s : Builder) : Builder :=
  {| nodes := nodes s; edges := edges s; selectedNode := selectedNode s;
     selectedNodes := f (selectedNodes s); isExecuting := isExecuting s;
     executionResults := executionResults s; executionLog := executionLog s;
     executionCount := executionCount s; executionFlow := executionFlow s;
     history := history s; historyIndex := historyIndex s; workflowSettings
     := workflowSettings s; currentExecutingNode := currentExecutingNode s;
     totalNodes := totalNodes s; completedNodes := completedNodes s |}.

Definition setIsExecuting (f : bool -> bool) (s : Builder) : Builder :=
  {| nodes := nodes s; edges := edges s; selectedNode := selectedNode s;
     selectedNodes := selectedNodes s; isExecuting := f (isExecuting s);
     executionResults := executionResults s; executionLog := executionLog s;
     executionCount := executionCount s; executionFlow := executionFlow s;
     history := history s; historyIndex := historyIndex s; workflowSettings
     := workflowSettings s; currentExecutingNode := currentExecutingNode s;
     totalNodes := totalNodes s; completedNodes := completedNodes s |}.

Definition setExecutionResults (f : gmap string ExecResult -> gmap string ExecResult) (s : Builder) : Builder :=
  {| nodes := nodes s; edges := edges s; selectedNode := selectedNode s;
     selectedNodes := selectedNodes s; isExecuting := isExecuting s;
     executionResults := f (executionResults s); executionLog := executionLog
     s; executionCount := executionCount s; executionFlow := executionFlow s;
     history := history s; historyIndex := historyIndex s; workflowSettings
     := workflowSettings s; currentExecutingNode := currentExecutingNode s;
     totalNodes := totalNodes s; completedNodes := completedNodes s |}.

Definition setExecutionLog (f : list LogEntry -> list LogEntry) (s : Builder) : Builder :=
  {| nodes := nodes s; edges := edges s; selectedNode := selectedNode s;
     selectedNodes := selectedNodes s; isExecuting := isExecuting s;
     executionResults := executionResults s; executionLog := f (executionLog
     s); executionCount := executionCount s; executionFlow := executionFlow
     s; history := history s; historyIndex := historyIndex s;
     workflowSettings := workflowSettings s; currentExecutingNode :=
     currentExecutingNode s; totalNodes := totalNodes s; completedNodes :=
     completedNodes s |}.

Definition setExecutionCount (f : Z -> Z) (s : Builder) : Builder :=
  {| nodes := nodes s; edges := edges s; selectedNode := selectedNode s;
     selectedNodes := selectedNodes s; isExecuting := isExecuting s;
     executionResults := executionResults s; executionLog := executionLog s;
     executionCount := f (executionCount s); executionFlow := executionFlow
     s; history := history s; historyIndex := historyIndex s;
     workflowSettings := workflowSettings s; currentExecutingNode :=
     currentExecutingNode s; totalNodes := totalNodes s; completedNodes :=
     completedNodes s |}.

Definition setExecutionFlow (f : list string -> list string) (s : Builder) : Builder :=
  {| nodes := nodes s; edges := edges s; selectedNode := selectedNode s;
     selectedNodes := selectedNodes s; isExecuting := isExecuting s;
     executionResults := executionResults s; executionLog := executionLog s;
     executionCount := executionCount s; executionFlow := f (executionFlow
     s); history := history s; historyIndex := historyIndex s;
     workflowSettings := workflowSettings s; currentExecutingNode :=
     currentExecutingNode s; totalNodes := totalNodes s; completedNodes :=
     completedNodes s |}.

Definition setHistory (f : list Snapshot -> list Snapshot) (s : Builder) : Builder :=
  {| nodes := nodes s; edges := edges s; selectedNode := selectedNode s;
     selectedNodes := selectedNodes s; isExecuting := isExecuting s;
     executionResults := executionResults s; executionLog := executionLog s;
     executionCount := executionCount s; executionFlow := executionFlow s;
     history := f (history s); historyIndex := historyIndex s;
     workflowSettings := workflowSettings s; currentExecutingNode :=
     currentExecutingNode s; totalNodes := totalNodes s; completedNodes :=
     completedNodes s |}.

Definition setHistoryIndex (f : Z -> Z) (s : Builder) : Builder :=
  {| nodes := nodes s; edges := edges s; selectedNode := selectedNode s;
     selectedNodes := selectedNodes s; isExecuting := isExecuting s;
     executionResults := executionResults s; executionLog := executionLog s;
     executionCount := executionCount s; executionFlow := executionFlow s;
     history := history s; historyIndex := f (historyIndex s);
     workflowSettings := workflowSettings s; currentExecutingNode :=
     currentExecutingNode s; totalNodes := totalNodes s; completedNodes :=
     completedNodes s |}.

Definition setCurrentExecutingNode (f : option string -> option string) (s : Builder) : Builder :=
  {| nodes := nodes s; edges := edges s; selectedNode := selectedNode s;
     selectedNodes := selectedNodes s; isExecuting := isExecuting s;
     executionResults := executionResults s; executionLog := executionLog s;
     executionCount := executionCount s; executionFlow := executionFlow s;
     history := history s; historyIndex := historyIndex s; workflowSettings
     := workflowSettings s; currentExecutingNode := f (currentExecutingNode
     s); totalNodes := totalNodes s; completedNodes := completedNodes s |}.

Definition setTotalNodes (f : Z -> Z) (s : Builder) : Builder :=
  {| nodes := nodes s; edges := edges s; selectedNode := selectedNode s;
     selectedNodes := selectedNodes s; isExecuting := isExecuting s;
     executionResults := executionResults s; executionLog := executionLog s;
     executionCount := executionCount s; executionFlow := executionFlow s;
     history := history s; historyIndex := historyIndex s; workflowSettings
     := workflowSettings s; currentExecutingNode := currentExecutingNode s;
     totalNodes := f (totalNodes s); completedNodes := completedNodes s |}.

Definition setCompletedNodes (f : Z -> Z) (s : Builder) : Builder :=
  {| nodes := nodes s; edges := edges s; selectedNode := selectedNode s;
     selectedNodes := selectedNodes s; isExecuting := isExecuting s;
     executionResults := executionResults s; executionLog := executionLog s;
     executionCount := executionCount s; executionFlow := executionFlow s;
     history := history s; historyIndex := historyIndex s; workflowSettings
     := workflowSettings s; currentExecutingNode := currentExecutingNode s;
     totalNodes := totalNodes s; completedNodes := f (completedNodes s) |}.

(** A callback with a complete dependency list runs in the latest render. *)
Definition fire {A} (h : Builder -> Builder -> A) (s : Builder) : A := h s s.

Definition graph_of (s : Builder) : Graph :=
  {| g_nodes := nodes s; g_edges := edges s |}.

(** [useState] initial values, for the given initial graph and settings. *)
Definition initialBuilder (initialNodes : list Node) (initialEdges : list Edge)
    (settings : Settings) : Builder :=
  {| nodes := initialNodes; edges := initialEdges;
     selectedNode := None; selectedNodes := [];
     isExecuting := false; executionResults := ∅; executionLog := [];
     executionCount := 0; executionFlow := [];
     history := []; historyIndex := (-1);
     workflowSettings := settings;
     currentExecutingNode := None; totalNodes := 0; completedNodes := 0 |}.

(** ** History *)

(** [saveToHistory]: the snapshot and the cut position come from the
    closure ([nodes], [edges], [historyIndex] of render [r]); the two
    updaters run on the pending state. *)
Definition saveToHistory (r s : Builder) : Builder :=
  setHistoryIndex (fun prev => prev + 1)%Z
    (setHistory
       (fun prev =>
          let newHistory := slice prev 0 (historyIndex r + 1) in
          let newHistory :=
            newHistory ++ [ {| Snapshot.nodes := nodes r; Snapshot.edges := edges r |} ] in
          slice_from newHistory (-50))
       s).

(** [undo]: [previousState.nodes] throws when the entry is [undefined]. *)
Definition undo (r s : Builder) : Outcome Builder :=
  if (0 <? historyIndex r)%Z then
    match index (history r) (historyIndex r - 1) with
    | None => Throws (TypeError "Cannot read properties of undefined (reading 'nodes')")
    | Some previousState =>
        Done (setHistoryIndex (fun prev => prev - 1)%Z
                (setEdges (fun _ => Snapshot.edges previousState)
                   (setNodes (fun _ => Snapshot.nodes previousState) s)))
    end
  else Done s.

(** [redo] *)
Definition redo (r s : Builder) : Outcome Builder :=
  if (historyIndex r <? Z.of_nat (length (history r)) - 1)%Z then
    match index (history r) (historyIndex r + 1) with
    | None => Throws (TypeError "Cannot read properties of undefined (reading 'nodes')")
    | Some nextState =>
        Done (setHistoryIndex (fun prev => prev + 1)%Z
                (setEdges (fun _ => Snapshot.edges nextState)
                   (setNodes (fun _ => Snapshot.nodes nextState) s)))
    end
  else Done s.

(** [canUndo] and [canRedo], as passed to the toolbar. *)
Definition canUndo (s : Builder) : bool := (0 <? historyIndex s)%Z.
Definition canRedo (s : Builder) : bool :=
  (historyIndex s <? Z.of_nat (length (history s)) - 1)%Z.

(** Sequencing of callbacks that may throw: a throwing callback leaves the
    state as it was. *)
Definition bind_outcome {A B} (o : Outcome A) (k : A -> Outcome B) : Outcome B :=
  match o with
  | Done a => k a
  | Throws e => Throws e
  end.

Fixpoint repeat_fire (h : Builder -> Builder -> Outcome Builder) (n : nat)
    (s : Builder) : Outcome Builder :=
  match n with
  | O => Done s
  | S n' => bind_outcome (fire h s) (repeat_fire h n')
  end.

(** ** Graph edits *)

(** React Flow's [Connection]. *)
Record Connection := {
  c_source : string;
  c_target : string;
  c_sourceHandle : option string;
  c_targetHandle : option string
}.

(** [h || ''] for a handle. *)
Definition handle_or_empty (h : option string) : string :=
  match h with
  | Some v => v
  | None => ""
  end.

(** [!h] for a handle: [null], [undefined] and the empty string are falsy. *)
Definition handle_falsy (h : option string) : bool :=
  String.eqb (handle_or_empty h) "".

Definition getEdgeId (c : Connection) : string :=
  "xy-edge__" +:+ c_source c +:+ handle_or_empty (c_sourceHandle c)
  +:+ "-" +:+ c_target c +:+ handle_or_empty (c_targetHandle c).

Definition same_handle (a b : option string) : bool :=
  bool_decide (a = b) || (handle_falsy a && handle_falsy b).

Definition connectionExists (e : Edge) (eds : list Edge) : bool :=
  existsb
    (fun el =>
       String.eqb (Edge.source el) (Edge.source e)
       && String.eqb (Edge.target el) (Edge.target e)
       && same_handle (Edge.sourceHandle el) (Edge.sourceHandle e)
       && same_handle (Edge.targetHandle el) (Edge.targetHandle e))
    eds.

(** [addEdge] of the canvas library (React Flow), which [onConnect] calls:
    it sees the connection and the edge list only, never the nodes.  A
    connection without source or target, or one that is already present,
    leaves the list as it is; otherwise the edge is appended. *)
Definition addEdge (params : Connection) (eds : list Edge) : list Edge :=
  if String.eqb (c_source params) "" || String.eqb (c_target params) "" then eds
  else
    let edge := {| Edge.id := getEdgeId params;
                   Edge.source := c_source params;
                   Edge.target := c_target params;
                   Edge.sourceHandle := c_sourceHandle params;
                   Edge.targetHandle := c_targetHandle params |} in
    if connectionExists edge eds then eds else eds ++ [edge].

(** [onConnect].  Its dependency list omits [saveToHistory], so the render
    [r] it pushes from may be older than the state [s] it updates. *)
Definition onConnect (r : Builder) (params : Connection) (s : Builder) : Builder :=
  saveToHistory r (setEdges (fun eds => addEdge params eds) s).

(** The node built by [onDrop] and by the toolbar's [onAddNode]. *)
Definition newNodeOf (type : string) (position : XY) (now : Z) : Node :=
  {| Node.id := type +:+ "-" +:+ tmpl_num now;
     Node.type := Some type;
     Node.position := position;
     Node.draggable := None;
     Node.data :=
       {| Node.label := Some (capitalize type +:+ " Node");
          Node.config := [];
          Node.status := Some StIdle;
          Node.enabled := Some true;
          Node.lastExecuted := None;
          Node.executionTime := None;
          Node.locked := None |} |}.

(** The toolbar's [onAddNode]; [now] is [Date.now()]. *)
Definition onAddNode (r : Builder) (type : string) (now : Z) (s : Builder) : Builder :=
  saveToHistory r
    (setNodes (fun nds => nds ++ [newNodeOf type {| x := 100; y := 100 |} now]) s).

(** [onDeleteNode] *)
Definition onDeleteNode (r : Builder) (nodeId : string) (s : Builder) : Builder :=
  let s1 := setNodes (List.filter (fun n => negb (String.eqb (Node.id n) nodeId))) s in
  let s2 :=
    setEdges
      (List.filter (fun e => negb (String.eqb (Edge.source e) nodeId)
                             && negb (String.eqb (Edge.target e) nodeId)))
      s1 in
  let s3 :=
    match selectedNode r with
    | Some sel => if String.eqb (Node.id sel) nodeId
                  then setSelectedNode (fun _ => None) s2 else s2
    | None => s2
    end in
  let s4 :=
    setSelectedNodes (List.filter (fun i => negb (String.eqb i nodeId))) s3 in
  saveToHistory r s4.

(** The copy [onDuplicateNode] builds. *)
Definition duplicateOf (nodeToDuplicate : Node) (now : Z) : Node :=
  {| Node.id := tmpl (Node.type nodeToDuplicate) +:+ "-" +:+ tmpl_num now;
     Node.type := Node.type nodeToDuplicate;
     Node.position :=
       {| x := x (Node.position nodeToDuplicate) + 50;
          y := y (Node.position nodeToDuplicate) + 50 |};
     Node.draggable := Node.draggable nodeToDuplicate;
     Node.data :=
       {| Node.label :=
            Some (tmpl (Node.label (Node.data nodeToDuplicate)) +:+ " (Copy)");
          Node.config := Node.config (Node.data nodeToDuplicate);
          Node.status := Some StIdle;
          Node.enabled := Node.enabled (Node.data nodeToDuplicate);
          Node.lastExecuted := Node.lastExecuted (Node.data nodeToDuplicate);
          Node.executionTime := Node.executionTime (Node.data nodeToDuplicate);
          Node.locked := Node.locked (Node.data nodeToDuplicate) |} |}.

(** [nodes.find(n => n.id === nodeId)] *)
Definition findNode (nds : list Node) (nodeId : string) : option Node :=
  List.find (fun n => String.eqb (Node.id n) nodeId) nds.

(** [onDuplicateNode]; [now] is [Date.now()]. *)
Definition onDuplicateNode (r : Builder) (nodeId : string) (now : Z)
    (s : Builder) : Builder :=
  match findNode (nodes r) nodeId with
  | None => s
  | Some nodeToDuplicate =>
      saveToHistory r
        (setNodes (fun nds => nds ++ [duplicateOf nodeToDuplicate now]) s)
  end.

(** A template, as [onApplyTemplate] reads it. *)
Record Template := {
  t_name : string;
  t_nodes : list Node;
  t_edges : list Edge
}.

(** [onApplyTemplate] *)
Definition onApplyTemplate (r : Builder) (template : Template) (s : Builder) : Builder :=
  saveToHistory r
    (setSelectedNode (fun _ => None)
       (setEdges (fun _ => t_edges template)
          (setNodes (fun _ => t_nodes template) s))).

(** [selectedNodes.includes(i)] *)
Definition includes (l : list string) (i : string) : bool :=
  existsb (String.eqb i) l.

(** [deleteSelectedNodes] *)
Definition deleteSelectedNodes (r s : Builder) : Builder :=
  let sel := selectedNodes r in
  saveToHistory r
    (setSelectedNode (fun _ => None)
       (setSelectedNodes (fun _ => [])
          (setEdges
             (List.filter (fun e => negb (includes sel (Edge.source e))
                                    && negb (includes sel (Edge.target e))))
             (setNodes (List.filter (fun n => negb (includes sel (Node.id n)))) s)))).

(** [{ ...n, data: { ...n.data, enabled: !n.data.enabled } }] *)
Definition toggleEnabled (n : Node) : Node :=
  {| Node.id := Node.id n; Node.type := Node.type n;
     Node.position := Node.position n; Node.draggable := Node.draggable n;
     Node.data :=
       {| Node.label := Node.label (Node.data n);
          Node.config := Node.config (Node.data n);
          Node.status := Node.status (Node.data n);
          Node.enabled := Some (not_enabled n);
          Node.lastExecuted := Node.lastExecuted (Node.data n);
          Node.executionTime := Node.executionTime (Node.data n);
          Node.locked := Node.locked (Node.data n) |} |}.

(** [onToggleNodeEnable] *)
Definition onToggleNodeEnable (r : Builder) (nodeId : string) (s : Builder) : Builder :=
  saveToHistory r
    (setNodes
       (map (fun n => if String.eqb (Node.id n) nodeId then toggleEnabled n else n))
       s).

(** ** Execution *)

(** The interface of the execution engine ([workflowEngine]) the builder
    calls.  The engine keeps its own state (its log); a call returns a
    value or throws one. *)
Module workflowEngine.
Class t (E : Type) := {
  executeWorkflow :
    list Node -> list Edge -> E -> (gmap string ExecResult + JsValue) * E;
  executeNode :
    string -> string -> JsValue -> list (string * string) -> E
    -> (ExecResult + JsValue) * E;
  getExecutionLog : E -> list LogEntry;
  clearExecutionData : E -> E
}.
End workflowEngine.

Inductive RunOutcome :=
  | RunBlocked
  | RunCompleted
  | RunFailed (error : JsValue).

Inductive SimOutcome :=
  | SimNull
  | SimResult (result : ExecResult)
  | SimFailed (details : JsValue) (inputData : JsValue).

(** The trigger nodes the run gate counts. *)
Definition enabledTriggerNodes (nds : list Node) : list Node :=
  List.filter (fun n => type_is "trigger" n && negb (enabled_is_false n)) nds.

Definition enabledNodes (nds : list Node) : list Node :=
  List.filter (fun n => negb (enabled_is_false n)) nds.

(** The guard at the head of [executeWorkflow]: [true] when it returns
    before anything is executed. *)
Definition runGate (settings : Settings) (nds : list Node) : bool :=
  enableValidation settings
  && Nat.eqb (length (enabledTriggerNodes nds)) 0.

(** [node.type || 'action'] *)
Definition type_or_action (n : Node) : string :=
  match Node.type n with
  | Some t => if String.eqb t "" then "action" else t
  | None => "action"
  end.

Definition withStatus (st : RuntimeStatus) (n : Node) : Node :=
  {| Node.id := Node.id n; Node.type := Node.type n;
     Node.position := Node.position n; Node.draggable := Node.draggable n;
     Node.data :=
       {| Node.label := Node.label (Node.data n);
          Node.config := Node.config (Node.data n);
          Node.status := Some st;
          Node.enabled := Node.enabled (Node.data n);
          Node.lastExecuted := Node.lastExecuted (Node.data n);
          Node.executionTime := Node.executionTime (Node.data n);
          Node.locked := Node.locked (Node.data n) |} |}.

(** [{ ...n, data: { ...n.data, status: 'success', lastExecuted, executionTime } }] *)
Definition withSuccess (now : Z) (result : ExecResult) (n : Node) : Node :=
  {| Node.id := Node.id n; Node.type := Node.type n;
     Node.position := Node.position n; Node.draggable := Node.draggable n;
     Node.data :=
       {| Node.label := Node.label (Node.data n);
          Node.config := Node.config (Node.data n);
          Node.status := Some StSuccess;
          Node.enabled := Node.enabled (Node.data n);
          Node.lastExecuted := Some now;
          Node.executionTime := res_executionTime result;
          Node.locked := Node.locked (Node.data n) |} |}.

(** [{ ...n, data: { ...n.data, status: 'idle', lastExecuted: undefined,
    executionTime: undefined } }] *)
Definition resetNode (n : Node) : Node :=
  {| Node.id := Node.id n; Node.type := Node.type n;
     Node.position := Node.position n; Node.draggable := Node.draggable n;
     Node.data :=
       {| Node.label := Node.label (Node.data n);
          Node.config := Node.config (Node.data n);
          Node.status := Some StIdle;
          Node.enabled := Node.enabled (Node.data n);
          Node.lastExecuted := None;
          Node.executionTime := None;
          Node.locked := Node.locked (Node.data n) |} |}.

Section Execution.
Context {E : Type} {engine : workflowEngine.t E}.

(** [executeWorkflow] *)
Definition executeWorkflow (r s : Builder) (e : E) : RunOutcome * Builder * E :=
  if runGate (workflowSettings r) (nodes r) then (RunBlocked, s, e)
  else
    let s1 :=
      setTotalNodes (fun _ => Z.of_nat (length (enabledNodes (nodes r))))
        (setCompletedNodes (fun _ => 0%Z)
           (setCurrentExecutingNode (fun _ => None)
              (setExecutionCount (fun prev => prev + 1)%Z
                 (setExecutionResults (fun _ => ∅)
                    (setIsExecuting (fun _ => true) s))))) in
    let finally_ (s' : Builder) :=
      setCurrentExecutingNode (fun _ => None) (setIsExecuting (fun _ => false) s') in
    match workflowEngine.executeWorkflow (nodes r) (edges r) e with
    | (inl results, e') =>
        (RunCompleted,
         finally_
           (setExecutionLog (fun _ => workflowEngine.getExecutionLog e')
              (setExecutionResults (fun _ => results) s1)),
         e')
    | (inr error, e') => (RunFailed error, finally_ s1, e')
    end.

(** [handleStepExecution]; [now] is [new Date()].  The [finally] block runs
    on every path, the early [return] included. *)
Definition handleStepExecution (r : Builder) (nodeId : string) (now : Z)
    (s : Builder) (e : E) : Builder * E :=
  match findNode (nodes r) nodeId with
  | None => (setCurrentExecutingNode (fun _ => None) s, e)
  | Some node =>
      let s1 := setCurrentExecutingNode (fun _ => Some nodeId) s in
      match workflowEngine.executeNode nodeId (type_or_action node) (JsObj [])
              (Node.config (Node.data node)) e with
      | (inl result, e') =>
          (setCurrentExecutingNode (fun _ => None)
             (setNodes
                (map (fun n => if String.eqb (Node.id n) nodeId
                               then withSuccess now result n else n))
                (setExecutionLog (fun _ => workflowEngine.getExecutionLog e')
                   (setExecutionResults (fun prev => <[nodeId := result]> prev) s1))),
           e')
      | (inr _, e') =>
          (setCurrentExecutingNode (fun _ => None)
             (setNodes
                (map (fun n => if String.eqb (Node.id n) nodeId
                               then withStatus StError n else n))
                s1),
           e')
      end
  end.

(** [handleSimulateNode]: no setter is called on either path. *)
Definition handleSimulateNode (r : Builder) (nodeId : string)
    (inputData : JsValue) (s : Builder) (e : E) : SimOutcome * Builder * E :=
  match findNode (nodes r) nodeId with
  | None => (SimNull, s, e)
  | Some node =>
      match workflowEngine.executeNode nodeId (type_or_action node) inputData
              (Node.config (Node.data node)) e with
      | (inl result, e') => (SimResult result, s, e')
      | (inr error, e') => (SimFailed error inputData, s, e')
      end
  end.

(** [clearExecution] *)
Definition clearExecution (s : Builder) (e : E) : Builder * E :=
  (setNodes (map resetNode)
     (setTotalNodes (fun _ => 0%Z)
        (setCompletedNodes (fun _ => 0%Z)
           (setCurrentExecutingNode (fun _ => None)
              (setExecutionFlow (fun _ => [])
                 (setExecutionLog (fun _ => [])
                    (setExecutionResults (fun _ => ∅) s)))))),
   workflowEngine.clearExecutionData e).
End Execution.

(** ** Vocabulary of the properties *)

(** One edge leads from [a] to [b]. *)
Definition edge_step (edges : list Edge) (a b : string) : Prop :=
  ∃ e, e ∈ edges ∧ Edge.source e = a ∧ Edge.target e = b.

(** A directed cycle: a non-empty closed walk along the edges. *)
Definition has_cycle (edges : list Edge) : Prop :=
  ∃ v, tc (edge_step edges) v v.

(** The edge invariant of the data model: both endpoints are node ids. *)
Definition endpoints_present (nds : list Node) (eds : list Edge) : Prop :=
  ∀ e, e ∈ eds →
    Edge.source e ∈ map Node.id nds ∧ Edge.target e ∈ map Node.id nds.

(** The same, as a test. *)
Definition endpointsPresent (nds : list Node) (eds : list Edge) : bool :=
  forallb
    (fun e => bool_decide (Edge.source e ∈ map Node.id nds)
              && bool_decide (Edge.target e ∈ map Node.id nds))
    eds.

(** A node the scan has finished with: visited and off the stack. *)
Definition finished (st : DfsState) (v : string) : Prop :=
  v ∈ visited st ∧ v ∉ recursionStack st.

(** The invariant of the scan between two calls of [hasCycle] that
    returned [false]. *)
Record dfs_inv (edges : list Edge) (st : DfsState) : Prop := {
  inv_stack : recursionStack st ⊆ visited st;
  inv_closed : ∀ b c, finished st b → edge_step edges b c → finished st c;
  inv_acyclic : ∀ b, finished st b → ¬ tc (edge_step edges) b b
}.

(** ** The cycle scan *)

Lemma tc_first_step {A} (R : relation A) (a c : A) :
  tc R a c → ∃ b, R a b ∧ rtc R b c.
Proof.
  intros [a' c' H|a' b c' H Htc].
  - exists c'. split; [done|apply rtc_refl].
  - exists b. split; [done|by apply tc_rtc].
Qed.

Section CycleScan.
Variable edges : list Edge.

Local Abbreviation step := (edge_step edges).

Lemma outgoingEdges_spec (v : string) (e : Edge) :
  e ∈ outgoingEdges edges v ↔ e ∈ edges ∧ Edge.source e = v.
Proof.
  unfold outgoingEdges.
  rewrite !list_elem_of_In, filter_In, String.eqb_eq. reflexivity.
Qed.

Lemma finished_closed_rtc (st : DfsState) (b c : string) :
  dfs_inv edges st → finished st b → rtc step b c → finished st c.
Proof.
  intros Hinv Hb Hbc. induction Hbc as [|a b' c Hab _ IH]; [done|].
  apply IH. eapply inv_closed; eauto.
Qed.

(** What a call of [hasCycle] (or any function in its place) owes. *)
Definition call_ok (call : string -> DfsState -> option (bool * DfsState)) : Prop :=
  ∀ v st r st',
    call v st = Some (r, st') →
    dfs_inv edges st →
    (∀ s, s ∈ recursionStack st → tc step s v) →
    if r then has_cycle edges
    else dfs_inv edges st'
         ∧ recursionStack st' = recursionStack st
         ∧ visited st ⊆ visited st'
         ∧ finished st' v.

Lemma forOutgoing_spec call (es : list Edge) :
  call_ok call →
  ∀ st r st',
    forOutgoing call es st = Some (r, st') →
    dfs_inv edges st →
    (∀ e s, e ∈ es → s ∈ recursionStack st → tc step s (Edge.target e)) →
    if r then has_cycle edges
    else dfs_inv edges st'
         ∧ recursionStack st' = recursionStack st
         ∧ visited st ⊆ visited st'
         ∧ ∀ e, e ∈ es → finished st' (Edge.target e).
Proof.
  intros Hcall. induction es as [|e es IH]; intros st r st' Hrun Hinv Hreach.
  - simpl in Hrun. injection Hrun as <- <-.
    split; [done|]. split; [done|]. split; [done|].
    intros e He. by apply elem_of_nil in He.
  - simpl in Hrun.
    destruct (call (Edge.target e) st) as [[[] st1]|] eqn:Hc; [| |done].
    + injection Hrun as <- <-.
      apply (Hcall _ _ _ _ Hc Hinv). intros s Hs. apply Hreach; [left|done].
    + destruct (Hcall _ _ _ _ Hc Hinv) as (Hinv1 & Hstk1 & Hvis1 & Hfin1).
      { intros s Hs. apply Hreach; [left|done]. }
      specialize (IH st1 r st' Hrun Hinv1).
      destruct r.
      * apply IH. intros e' s He' Hs. rewrite Hstk1 in Hs.
        apply Hreach; [by right|done].
      * destruct IH as (Hinv' & Hstk' & Hvis' & Hfin').
        { intros e' s He' Hs. rewrite Hstk1 in Hs.
          apply Hreach; [by right|done]. }
        split; [done|]. split; [congruence|]. split; [set_solver|].
        intros e' [->|He']%elem_of_cons; [|by apply Hfin'].
           destruct Hfin1 as [Hv Hs]. split; [set_solver|congruence].
Qed.

Lemma hasCycle_ok (fuel : nat) : call_ok (hasCycle fuel edges).
Proof.
  induction fuel as [|fuel IH]; intros v st r st' Hrun Hinv Hreach; [done|].
  simpl in Hrun.
  case_bool_decide as Hstk.
  { injection Hrun as <- <-. exists v. by apply Hreach. }
  case_bool_decide as Hvis.
  { injection Hrun as <- <-. split; [done|]. split; [done|]. split; [done|].
    by split. }
  set (st1 := {| visited := {[v]} ∪ visited st;
                 recursionStack := {[v]} ∪ recursionStack st |}) in *.
  assert (Hinv1 : dfs_inv edges st1).
  { destruct Hinv as [H1 H2 H3]. split; simpl.
    - set_solver.
    - intros b c [Hb Hnb] Hbc. simpl in *.
      assert (finished st b) as Hfb by (split; set_solver).
      destruct (H2 b c Hfb Hbc) as [Hc1 Hc2].
      split; simpl; [set_solver|]. set_solver.
    - intros b [Hb Hnb]. simpl in *. apply H3. split; set_solver. }
  destruct (forOutgoing (hasCycle fuel edges) (outgoingEdges edges v) st1)
    as [[[] st2]|] eqn:Hloop; [| |done].
  - injection Hrun as <- <-.
    apply (forOutgoing_spec _ _ IH _ _ _ Hloop Hinv1).
    intros e s [He Hsrc]%outgoingEdges_spec Hs. simpl in Hs.
    assert (step v (Edge.target e)) as Hstep by (by exists e).
    apply elem_of_union in Hs as [->%elem_of_singleton|Hs].
    + by apply tc_once.
    + eapply tc_r; [by apply Hreach|done].
  - injection Hrun as <- <-.
    destruct (forOutgoing_spec _ _ IH _ _ _ Hloop Hinv1)
      as (Hinv2 & Hstk2 & Hvis2 & Hfin2).
    { intros e s [He Hsrc]%outgoingEdges_spec Hs. simpl in Hs.
      assert (step v (Edge.target e)) as Hstep by (by exists e).
      apply elem_of_union in Hs as [->%elem_of_singleton|Hs].
      - by apply tc_once.
      - eapply tc_r; [by apply Hreach|done]. }
    simpl in Hstk2, Hvis2.
    assert (Hsucc : ∀ c, step v c → finished st2 c).
    { intros c (e & He & Hsrc & <-). apply Hfin2. by apply outgoingEdges_spec. }
    assert (Hgray : ¬ finished st2 v).
    { intros [_ Hn]. apply Hn. rewrite Hstk2. set_solver. }
    assert (Hrestore : recursionStack st2 ∖ {[v]} = recursionStack st).
    { rewrite Hstk2. apply set_eq. intros z. set_solver. }
    destruct Hinv2 as [H1 H2 H3].
    split; [split; simpl|].
    + rewrite Hrestore. pose proof (inv_stack _ _ Hinv). set_solver.
    + intros b c [Hb Hnb] Hbc. simpl in *.
      assert (finished st2 c) as [Hc1 Hc2].
      { destruct (decide (b = v)) as [->|Hne]; [by apply Hsucc|].
        apply (H2 b c); [|done]. split; [done|]. set_solver. }
      split; simpl; [done|set_solver].
    + intros b [Hb Hnb] Hcyc. simpl in *.
      destruct (decide (b = v)) as [->|Hne].
      * apply tc_first_step in Hcyc. apply Hgray.
        destruct Hcyc as (c & Hvc & Hcv).
        eapply finished_closed_rtc; [split; done| |done]. by apply Hsucc.
      * apply (H3 b); [|done]. split; [done|]. set_solver.
    + simpl. split; [done|]. split; [set_solver|].
      split; simpl; set_solver.
Qed.
End CycleScan.

(** *** The scan terminates *)

Lemma size_list_to_set_le (l : list string) :
  size (list_to_set l : gset string) ≤ length l.
Proof.
  induction l as [|a l IH].
  - by rewrite list_to_set_nil, size_empty.
  - rewrite list_to_set_cons, size_union_alt, size_singleton.
    assert (list_to_set l ∖ {[a]} ⊆ (list_to_set l : gset string)) as Hsub
      by set_solver.
    apply subseteq_size in Hsub. simpl. lia.
Qed.

Section ScanMonotone.
Variable edges : list Edge.

Lemma forOutgoing_mono call (es : list Edge) :
  (∀ v st r st', call v st = Some (r, st') → visited st ⊆ visited st') →
  ∀ st r st', forOutgoing call es st = Some (r, st') → visited st ⊆ visited st'.
Proof.
  intros Hcall. induction es as [|e es IH]; intros st r st' Hrun; simpl in Hrun.
  - by injection Hrun as <- <-.
  - destruct (call (Edge.target e) st) as [[[] st1]|] eqn:Hc; [| |done].
    + injection Hrun as <- <-. eauto.
    + etrans; [by eapply Hcall|by eapply IH].
Qed.

Lemma hasCycle_mono (fuel : nat) (v : string) (st : DfsState) r st' :
  hasCycle fuel edges v st = Some (r, st') → visited st ⊆ visited st'.
Proof.
  revert v st r st'.
  induction fuel as [|fuel IH]; intros v st r st' Hrun; [done|].
  simpl in Hrun.
  case_bool_decide; [by injection Hrun as <- <-|].
  case_bool_decide; [by injection Hrun as <- <-|].
  destruct (forOutgoing _ _ _) as [[[] st2]|] eqn:Hloop; [| |done].
  - injection Hrun as <- <-.
    apply (forOutgoing_mono _ _ IH) in Hloop. simpl in Hloop. set_solver.
  - injection Hrun as <- <-.
    apply (forOutgoing_mono _ _ IH) in Hloop. simpl in *. set_solver.
Qed.
End ScanMonotone.

Section ScanTermination.
Variable edges : list Edge.
(** The ids the scan may meet. *)
Variable U : gset string.
Hypothesis targets_in_U : ∀ e, e ∈ edges → Edge.target e ∈ U.

Lemma forOutgoing_total (fuel : nat) (es : list Edge) :
  (∀ v st, v ∈ U → size (U ∖ visited st) < fuel →
           is_Some (hasCycle fuel edges v st)) →
  ∀ st, (∀ e, e ∈ es → e ∈ edges) → size (U ∖ visited st) < fuel →
        is_Some (forOutgoing (hasCycle fuel edges) es st).
Proof using targets_in_U.
  intros Hcall. induction es as [|e es IH]; intros st Hes Hsz; simpl; [by eexists|].
  destruct (Hcall (Edge.target e) st) as [[r st1] Hc].
  { apply targets_in_U, Hes. by left. }
  { done. }
  rewrite Hc. destruct r; [by eexists|].
  apply IH; [intros e' He'; apply Hes; by right|].
  apply hasCycle_mono in Hc.
  assert (U ∖ visited st1 ⊆ U ∖ visited st) as Hsub by set_solver.
  apply subseteq_size in Hsub. lia.
Qed.

Lemma hasCycle_total (fuel : nat) :
  ∀ v st, v ∈ U → size (U ∖ visited st) < fuel →
          is_Some (hasCycle fuel edges v st).
Proof using targets_in_U.
  induction fuel as [|fuel IH]; intros v st Hv Hsz; [lia|].
  simpl.
  case_bool_decide; [by eexists|].
  case_bool_decide as Hvis; [by eexists|].
  set (st1 := {| visited := {[v]} ∪ visited st;
                 recursionStack := {[v]} ∪ recursionStack st |}).
  destruct (forOutgoing_total fuel (outgoingEdges edges v) IH st1) as [[r st2] Hloop].
  { intros e He. by apply outgoingEdges_spec in He as [He _]. }
  { simpl.
    assert (U ∖ ({[v]} ∪ visited st) ⊂ U ∖ visited st) as Hlt%subset_size.
    { apply strict_spec_alt. split; [set_solver|].
      intros Heq. assert (v ∈ U ∖ visited st) as Hin by set_solver.
      rewrite <- Heq in Hin. set_solver. }
    lia. }
  rewrite Hloop. destruct r; by eexists.
Qed.

Lemma cycleScan_total (fuel : nat) (ns : list Node) :
  ∀ st, (∀ n, n ∈ ns → Node.id n ∈ U) → size (U ∖ visited st) < fuel →
        is_Some (cycleScan fuel edges ns st).
Proof using targets_in_U.
  induction ns as [|n ns IH]; intros st Hns Hsz; simpl; [by eexists|].
  destruct (hasCycle_total fuel (Node.id n) st) as [[r st1] Hc]; [|done|].
  { apply Hns. by left. }
  rewrite Hc. destruct r; [by eexists|].
  apply IH; [intros n' Hn'; apply Hns; by right|].
  apply hasCycle_mono in Hc.
  assert (U ∖ visited st1 ⊆ U ∖ visited st) as Hsub by set_solver.
  apply subseteq_size in Hsub. lia.
Qed.
End ScanTermination.

(** [cycleIssues] always returns: the fuel of [dfsFuel] is enough. *)
Lemma cycleIssues_total (nds : list Node) (eds : list Edge) :
  is_Some (cycleIssues nds eds).
Proof.
  unfold cycleIssues.
  apply (cycleScan_total eds (list_to_set (map Node.id nds ++ map Edge.target eds))).
  - intros e He. apply elem_of_list_to_set, elem_of_app. right.
    by apply list_elem_of_fmap_2.
  - intros n Hn. apply elem_of_list_to_set, elem_of_app. left.
    by apply list_elem_of_fmap_2.
  - unfold dfsFuel, dfs_init. simpl.
    pose proof (size_list_to_set_le (map Node.id nds ++ map Edge.target eds)) as Hle.
    rewrite length_app, !length_map in Hle.
    assert (list_to_set (map Node.id nds ++ map Edge.target eds) ∖ (∅ : gset string)
            ⊆ (list_to_set (map Node.id nds ++ map Edge.target eds) : gset string))
      as Hsub by set_solver.
    apply subseteq_size in Hsub. lia.
Qed.

(** [validate] always returns a list of issues. *)
Lemma validate_total (g : Graph) : is_Some (validate g).
Proof.
  unfold validate. destruct (cycleIssues_total (g_nodes g) (g_edges g)) as [cyc ->].
  by eexists.
Qed.

(** *** What the scan reports *)

Lemma dfs_init_inv (eds : list Edge) : dfs_inv eds dfs_init.
Proof.
  split; simpl.
  - set_solver.
  - intros b c [Hb _]. simpl in Hb. set_solver.
  - intros b [Hb _]. simpl in Hb. set_solver.
Qed.

(** The outer loop: either every listed node ends finished and nothing is
    reported, or one issue is reported, for a listed node, and the edges
    do contain a cycle. *)
Lemma cycleScan_spec (fuel : nat) (eds : list Edge) (ns : list Node) :
  ∀ st l,
    cycleScan fuel eds ns st = Some l →
    dfs_inv eds st → recursionStack st = ∅ →
    (l = [] ∧ ∃ st', dfs_inv eds st' ∧ recursionStack st' = ∅
                     ∧ visited st ⊆ visited st'
                     ∧ ∀ n, n ∈ ns → finished st' (Node.id n))
    ∨ (∃ n, n ∈ ns ∧ l = [cycleIssue n] ∧ has_cycle eds).
Proof.
  induction ns as [|n ns IH]; intros st l Hrun Hinv Hstk; simpl in Hrun.
  - injection Hrun as <-. left. split; [done|]. exists st.
    split; [done|]. split; [done|]. split; [done|].
    intros n Hn. by apply elem_of_nil in Hn.
  - destruct (hasCycle fuel eds (Node.id n) st) as [[[] st1]|] eqn:Hc; [| |done].
    + injection Hrun as <-. right. exists n. split; [by left|]. split; [done|].
      apply (hasCycle_ok eds fuel _ _ _ _ Hc Hinv).
      intros s Hs. rewrite Hstk in Hs. set_solver.
    + destruct (hasCycle_ok eds fuel _ _ _ _ Hc Hinv) as (Hinv1 & Hstk1 & Hvis1 & Hfin1).
      { intros s Hs. rewrite Hstk in Hs. set_solver. }
      rewrite Hstk in Hstk1.
      destruct (IH st1 l Hrun Hinv1 Hstk1)
        as [(-> & st' & Hinv' & Hstk' & Hvis' & Hfin')|(m & Hm & -> & Hcyc)].
      * left. split; [done|]. exists st'.
        split; [done|]. split; [done|]. split; [set_solver|].
        intros m [->|Hm]%elem_of_cons; [|by apply Hfin'].
        destruct Hfin1 as [Hv _]. split; [set_solver|]. rewrite Hstk'. set_solver.
      * right. exists m. split; [by right|]. by split.
Qed.

(** Nothing reported: no cycle can be reached from a listed node. *)
Lemma cycleIssues_nil_no_reachable_cycle (nds : list Node) (eds : list Edge) :
  cycleIssues nds eds = Some [] →
  ∀ n w, n ∈ nds → rtc (edge_step eds) (Node.id n) w → ¬ tc (edge_step eds) w w.
Proof.
  intros Hrun n w Hn Hnw.
  destruct (cycleScan_spec _ _ _ _ _ Hrun (dfs_init_inv eds) eq_refl)
    as [(_ & st' & Hinv' & _ & _ & Hfin')|(m & _ & [=] & _)].
  apply (inv_acyclic _ _ Hinv').
  eapply finished_closed_rtc; [done| |done]. by apply Hfin'.
Qed.

(** Something reported: it is one issue, and the edges contain a cycle. *)
Lemma cycleIssues_cons_cycle (nds : list Node) (eds : list Edge) i l :
  cycleIssues nds eds = Some (i :: l) →
  (∃ n, n ∈ nds ∧ i = cycleIssue n) ∧ l = [] ∧ has_cycle eds.
Proof.
  intros Hrun.
  destruct (cycleScan_spec _ _ _ _ _ Hrun (dfs_init_inv eds) eq_refl)
    as [([=] & _)|(m & Hm & [= -> ->] & Hcyc)].
  split; [by exists m|]. by split.
Qed.

(** *** Telling the issues of [validate] apart *)

Lemma filter_map_none {A B} (p : B → bool) (f : A → B) (l : list A) :
  (∀ a, p (f a) = false) → List.filter p (map f l) = [].
Proof. intros H. induction l as [|a l IH]; simpl; [done|]. by rewrite H. Qed.

Lemma filter_map_all {A B} (p : B → bool) (f : A → B) (l : list A) :
  (∀ a, p (f a) = true) → List.filter p (map f l) = map f l.
Proof. intros H. induction l as [|a l IH]; simpl; [done|]. by rewrite H, IH. Qed.

Lemma prefix_append (p x : string) : String.prefix p (p +:+ x) = true.
Proof.
  induction p as [|a p IH].
  - change ("" +:+ x) with x. by destruct x.
  - change (String a p +:+ x) with (String a (p +:+ x)). cbn [String.prefix].
    destruct (Ascii.ascii_dec a a); [apply IH|done].
Qed.

Lemma cycleIssue_is_cycle_error (n : Node) : is_cycle_error (cycleIssue n) = true.
Proof. unfold is_cycle_error. cbn [cycleIssue Issue.id]. by rewrite prefix_append. Qed.

Lemma isolatedIssue_is_isolation_warning (n : Node) :
  is_isolation_warning (isolatedIssue n) = true.
Proof.
  unfold is_isolation_warning. cbn [isolatedIssue Issue.id]. by rewrite prefix_append.
Qed.

(** The cycle issues of a result of [validate] are those of the scan. *)
Lemma validate_cycle_errors (g : Graph) (issues : list ValidationIssue) :
  validate g = Some issues →
  ∃ cyc, cycleIssues (g_nodes g) (g_edges g) = Some cyc
         ∧ List.filter is_cycle_error issues = List.filter is_cycle_error cyc.
Proof.
  unfold validate. destruct (cycleIssues _ _) as [cyc|]; [|done].
  intros [= <-]. exists cyc. split; [done|].
  rewrite !List.filter_app.
  assert (List.filter is_cycle_error (noTriggerIssues (g_nodes g)) = []) as ->.
  { unfold noTriggerIssues. by destruct (triggerNodes _). }
  unfold isolatedIssues, conditionIssues, disabledCriticalIssues.
  rewrite !filter_map_none by done. simpl. by rewrite app_nil_r.
Qed.

(** The isolation warnings of a result of [validate] are those of rule 2. *)
Lemma validate_isolation_warnings (g : Graph) (issues : list ValidationIssue) :
  validate g = Some issues →
  List.filter is_isolation_warning issues = isolatedIssues (g_nodes g) (g_edges g).
Proof.
  unfold validate. destruct (cycleIssues _ _) as [cyc|] eqn:Hcyc; [|done].
  intros [= <-].
  rewrite !List.filter_app.
  assert (List.filter is_isolation_warning (noTriggerIssues (g_nodes g)) = []) as ->.
  { unfold noTriggerIssues. by destruct (triggerNodes _). }
  assert (List.filter is_isolation_warning cyc = []) as ->.
  { destruct cyc as [|i l]; [done|].
    apply cycleIssues_cons_cycle in Hcyc as ((n & _ & ->) & -> & _). done. }
  unfold isolatedIssues, conditionIssues, disabledCriticalIssues.
  rewrite (filter_map_all _ isolatedIssue) by apply isolatedIssue_is_isolation_warning.
  rewrite !filter_map_none by done. simpl. by rewrite app_nil_r.
Qed.

(** ** Sample data *)

Module Sample.
(** A node as [onAddNode] creates it, with the given id. *)
Definition node (id type : string) : Node :=
  {| Node.id := id; Node.type := Some type;
     Node.position := {| x := 100; y := 100 |}; Node.draggable := None;
     Node.data :=
       {| Node.label := Some (capitalize type +:+ " Node");
          Node.config := []; Node.status := Some StIdle;
          Node.enabled := Some true; Node.lastExecuted := None;
          Node.executionTime := None; Node.locked := None |} |}.

Definition disabledNode (id type : string) : Node := toggleEnabled (node id type).

Definition edge (source target : string) : Edge :=
  {| Edge.id := "xy-edge__" +:+ source +:+ "-" +:+ target;
     Edge.source := source; Edge.target := target;
     Edge.sourceHandle := None; Edge.targetHandle := None |}.

(** The initial value of [workflowSettings]. *)
Definition settings : Settings :=
  {| name := "My Workflow"; description := "A powerful automation workflow";
     timeout := 300; retryAttempts := 3; enableLogging := true;
     logLevel := LvInfo; enableValidation := true; autoSave := true;
     executionMode := Sequential; errorHandling := Stop |}.

(** trigger -> a -> b -> a *)
Definition cyclic : Graph :=
  {| g_nodes := [node "t" "trigger"; node "a" "action"; node "b" "action"];
     g_edges := [edge "t" "a"; edge "a" "b"; edge "b" "a"] |}.

(** trigger -> a -> b, a -> c, c -> b *)
Definition diamond : Graph :=
  {| g_nodes := [node "t" "trigger"; node "a" "condition";
                 node "b" "action"; node "c" "action"; node "d" "email"];
     g_edges := [edge "t" "a"; edge "a" "b"; edge "a" "c"; edge "c" "b"] |}.

(** A single disabled trigger. *)
Definition disabledTrigger : Graph :=
  {| g_nodes := [disabledNode "t" "trigger"]; g_edges := [] |}.

(** A cycle among ids that are not nodes of the graph. *)
Definition dangling : Graph :=
  {| g_nodes := [node "t" "trigger"]; g_edges := [edge "p" "q"; edge "q" "p"] |}.
End Sample.

Example validate_cyclic :
  validate Sample.cyclic = Some [cycleIssue (Sample.node "t" "trigger")].
Proof. vm_compute. reflexivity. Qed.

Example validate_diamond :
  validate Sample.diamond = Some [isolatedIssue (Sample.node "d" "email")].
Proof. vm_compute. reflexivity. Qed.

Example validate_disabledTrigger :
  validate Sample.disabledTrigger
  = Some [disabledCriticalIssue (Sample.disabledNode "t" "trigger")].
Proof. vm_compute. reflexivity. Qed.

(** Without the edge invariant a cycle can go unreported: the scan starts
    from the listed nodes only. *)
Example validate_dangling : validate Sample.dangling = Some [].
Proof. vm_compute. reflexivity. Qed.

(** ** Validation: cycles (rule 4) *)

Lemma endpointsPresent_spec (nds : list Node) (eds : list Edge) :
  endpointsPresent nds eds = true ↔ endpoints_present nds eds.
Proof.
  unfold endpointsPresent, endpoints_present. rewrite forallb_forall. split.
  - intros H e He%list_elem_of_In. specialize (H e He).
    apply andb_true_iff in H as [H1%bool_decide_eq_true H2%bool_decide_eq_true].
    done.
  - intros H e He%list_elem_of_In. destruct (H e He) as [H1 H2].
    apply andb_true_iff. by rewrite !bool_decide_eq_true.
Qed.

(** A cycle that a listed node can reach is reported, whatever the edges. *)
Lemma reachable_cycle_reported (nds : list Node) (eds : list Edge) (n : Node) w :
  n ∈ nds → rtc (edge_step eds) (Node.id n) w → tc (edge_step eds) w w →
  ∃ m, m ∈ nds ∧ cycleIssues nds eds = Some [cycleIssue m].
Proof.
  intros Hn Hnw Hcyc.
  destruct (cycleIssues_total nds eds) as [[|i l] Hrun].
  - by destruct (cycleIssues_nil_no_reachable_cycle _ _ Hrun n w).
  - destruct (cycleIssues_cons_cycle _ _ _ _ Hrun) as ((m & Hm & ->) & -> & _).
    by exists m.
Qed.

(** C2, amended.  For every graph that satisfies the edge invariant of the
    data model (both endpoints of every edge are ids of listed nodes),
    [validate] returns, and:
    if the edges contain a directed cycle, exactly one cycle error is among
    the issues (reported for a listed node); if they contain none, no cycle
    error is. *)
Theorem validate_cycle_detection (g : Graph) :
  endpoints_present (g_nodes g) (g_edges g) →
  ∃ issues,
    validate g = Some issues
    ∧ (has_cycle (g_edges g) →
       ∃ n, n ∈ g_nodes g ∧ List.filter is_cycle_error issues = [cycleIssue n])
    ∧ (¬ has_cycle (g_edges g) → List.filter is_cycle_error issues = []).
Proof.
  intros Hwf. destruct (validate_total g) as [issues Hv]. exists issues.
  split; [done|].
  destruct (validate_cycle_errors _ _ Hv) as (cyc & Hcyc & ->).
  destruct cyc as [|i l].
  - split; [|done]. intros (v & Hv').
    destruct (tc_first_step _ _ _ Hv') as (b & (e & He & Hsrc & _) & _).
    destruct (Hwf e He) as [(n & Hid & Hn)%list_elem_of_fmap _].
    destruct (cycleIssues_nil_no_reachable_cycle _ _ Hcyc n v Hn); [|done].
    rewrite <- Hid, Hsrc. apply rtc_refl.
  - destruct (cycleIssues_cons_cycle _ _ _ _ Hcyc) as ((n & Hn & ->) & -> & Hc).
    split; [|done]. intros _. exists n. split; [done|].
    simpl. by rewrite cycleIssue_is_cycle_error.
Qed.

Lemma validate_cycle_detection_witness :
  endpoints_present (g_nodes Sample.cyclic) (g_edges Sample.cyclic)
  ∧ ∃ issues,
      validate Sample.cyclic = Some issues
      ∧ (has_cycle (g_edges Sample.cyclic) →
         ∃ n, n ∈ g_nodes Sample.cyclic
              ∧ List.filter is_cycle_error issues = [cycleIssue n])
      ∧ (¬ has_cycle (g_edges Sample.cyclic) →
         List.filter is_cycle_error issues = []).
Proof.
  assert (endpoints_present (g_nodes Sample.cyclic) (g_edges Sample.cyclic)) as H.
  { apply endpointsPresent_spec. vm_compute. reflexivity. }
  split; [exact H|]. exact (validate_cycle_detection Sample.cyclic H).
Defined.

(** C2 as stated: for every node and edge list, a cycle among the edges
    gives exactly one cycle error and no cycle gives none. *)
Definition cycle_detection_on_every_graph : Prop :=
  ∀ (g : Graph) (issues : list ValidationIssue),
    validate g = Some issues →
    (has_cycle (g_edges g) →
     ∃ n, n ∈ g_nodes g ∧ List.filter is_cycle_error issues = [cycleIssue n])
    ∧ (¬ has_cycle (g_edges g) → List.filter is_cycle_error issues = []).

(** A document with one trigger node and two edges p -> q -> p between ids
    that are not nodes, as an import installs it: the edges form a cycle,
    the scan starts from the listed node only, and nothing is reported. *)
Lemma unlisted_cycle_unreported : ¬ cycle_detection_on_every_graph.
Proof.
  intros H. destruct (H Sample.dangling [] validate_dangling) as [Hcyc _].
  destruct Hcyc as (n & _ & Hn); [|done].
  exists "p". apply tc_l with "q"; [|apply tc_once].
  - exists (Sample.edge "p" "q"). split; [by left|done].
  - exists (Sample.edge "q" "p"). split; [right; by left|done].
Qed.

(** ** Validation: isolated nodes (rule 2) *)

Lemma type_is_false (k : string) (n : Node) :
  type_is k n = false ↔ Node.type n ≠ Some k.
Proof.
  unfold type_is. destruct (Node.type n) as [t|]; [|done].
  rewrite String.eqb_neq. split; congruence.
Qed.

Lemma isolated_spec (eds : list Edge) (n : Node) :
  isolated eds n = true
  ↔ Node.type n ≠ Some "trigger"
    ∧ ∀ e, e ∈ eds → Edge.source e ≠ Node.id n ∧ Edge.target e ≠ Node.id n.
Proof.
  unfold isolated, connectedNodeIds.
  rewrite andb_true_iff, !negb_true_iff, bool_decide_eq_false, type_is_false.
  rewrite elem_of_list_to_set, elem_of_app, !list_elem_of_fmap.
  split.
  - intros [Hcon Hty]. split; [done|]. intros e He.
    split; intros Heq; apply Hcon; [left|right]; by exists e.
  - intros [Hty Hcon]. split; [|done].
    intros [(e & Heq & He)|(e & Heq & He)]; destruct (Hcon e He); congruence.
Qed.

(** The issues that carry the id of node [n]. *)
Definition for_node (n : Node) (i : ValidationIssue) : bool :=
  bool_decide (Issue.nodeId i = Some (Node.id n)).

Lemma isolatedIssues_absent (p : Node → bool) (n : Node) (nds : list Node) :
  Node.id n ∉ map Node.id nds →
  List.filter (for_node n) (map isolatedIssue (List.filter p nds)) = [].
Proof.
  induction nds as [|m nds IH]; intros Hn; [done|]. simpl in *.
  apply not_elem_of_cons in Hn as [Hne Hn].
  destruct (p m); simpl; [|by apply IH].
  unfold for_node at 1. simpl. rewrite bool_decide_eq_false_2 by congruence.
  by apply IH.
Qed.

Lemma isolatedIssues_present (p : Node → bool) (n : Node) (nds : list Node) :
  NoDup (map Node.id nds) → n ∈ nds →
  length (List.filter (for_node n) (map isolatedIssue (List.filter p nds)))
  = if p n then 1 else 0.
Proof.
  induction nds as [|m nds IH]; intros Hnd Hn; [by apply elem_of_nil in Hn|].
  simpl in Hnd. apply NoDup_cons in Hnd as [Hm Hnd].
  apply elem_of_cons in Hn as [->|Hn].
  - simpl. destruct (p m); simpl.
    + unfold for_node at 1. simpl. rewrite bool_decide_eq_true_2 by done.
      simpl. by rewrite isolatedIssues_absent.
    + by rewrite isolatedIssues_absent.
  - assert (Node.id m ≠ Node.id n) as Hne.
    { intros Heq. apply Hm. rewrite Heq. by apply list_elem_of_fmap_2. }
    simpl. destruct (p m); simpl; [|by apply IH].
    unfold for_node at 1. simpl. rewrite bool_decide_eq_false_2 by congruence.
    by apply IH.
Qed.

(** C6. [validate] returns, and its isolation warnings are, in order, one
    warning for each listed node that passes the isolation test; a node
    passes the test exactly when it is not of kind trigger and no edge has
    its id as source or target.  When node ids are unique, the number of
    isolation warnings carrying the id of a listed node is one if it is
    isolated and zero otherwise. *)
Theorem validate_isolation_warnings_exact (g : Graph) :
  ∃ issues,
    validate g = Some issues
    ∧ List.filter is_isolation_warning issues
      = map isolatedIssue (List.filter (isolated (g_edges g)) (g_nodes g))
    ∧ (∀ n, isolated (g_edges g) n = true
            ↔ Node.type n ≠ Some "trigger"
              ∧ ∀ e, e ∈ g_edges g →
                     Edge.source e ≠ Node.id n ∧ Edge.target e ≠ Node.id n)
    ∧ (NoDup (map Node.id (g_nodes g)) →
       ∀ n, n ∈ g_nodes g →
            length (List.filter (for_node n)
                      (List.filter is_isolation_warning issues))
            = if isolated (g_edges g) n then 1 else 0).
Proof.
  destruct (validate_total g) as [issues Hv]. exists issues.
  split; [done|].
  rewrite (validate_isolation_warnings _ _ Hv). unfold isolatedIssues.
  split; [done|]. split; [apply isolated_spec|].
  intros Hnd n Hn. by apply isolatedIssues_present.
Qed.

(** ** The run gate *)

(** A small engine for the examples: it logs one entry per node execution,
    echoes the input, and faults on nodes of type [http]. *)
Module SampleEngine.
Definition entry (nodeId : string) (t : LogType) (n : nat) : LogEntry :=
  {| log_id := nodeId; log_message := "executed"; log_type := t;
     log_timestamp := Z.of_nat n; log_nodeId := Some nodeId |}.

#[global] Instance logging : workflowEngine.t (list LogEntry) := {
  workflowEngine.executeWorkflow _ _ log := (inl ∅, log);
  workflowEngine.executeNode nodeId type input _ log :=
    if String.eqb type "http"
    then (inr (JsStr "request failed"), log ++ [entry nodeId LogError (length log)])
    else (inl {| res_output := input; res_executionTime := Some 5%Z |},
          log ++ [entry nodeId LogSuccess (length log)]);
  workflowEngine.getExecutionLog log := log;
  workflowEngine.clearExecutionData _ := []
}.
End SampleEngine.

Definition outcome_of {E} (res : RunOutcome * Builder * E) : RunOutcome := res.1.1.

Lemma enabledTriggerNodes_nil (nds : list Node) :
  enabledTriggerNodes nds = []
  ↔ ∀ n, n ∈ nds →
         ¬ (Node.type n = Some "trigger" ∧ Node.enabled (Node.data n) ≠ Some false).
Proof.
  unfold enabledTriggerNodes. induction nds as [|m nds IH]; simpl.
  - split; [|done]. intros _ n Hn. by apply elem_of_nil in Hn.
  - assert (type_is "trigger" m && negb (enabled_is_false m) = true
            ↔ Node.type m = Some "trigger" ∧ Node.enabled (Node.data m) ≠ Some false)
      as Hm.
    { rewrite andb_true_iff, negb_true_iff. unfold type_is, enabled_is_false.
      destruct (Node.type m) as [t|];
        [rewrite String.eqb_eq|]; destruct (Node.enabled (Node.data m)) as [[]|];
        split; intros [H1 H2]; split; congruence. }
    destruct (type_is "trigger" m && negb (enabled_is_false m)).
    + split; [done|]. intros H. destruct (H m); [by left|by apply Hm].
    + rewrite IH. split.
      * intros H n [->|Hn]%elem_of_cons; [|by apply H].
        intros Hc%Hm. done.
      * intros H n Hn. apply H. by right.
Qed.

Lemma noTriggerIssue_in_validate (g : Graph) (issues : list ValidationIssue) :
  validate g = Some issues → noTriggerIssue ∈ issues → triggerNodes (g_nodes g) = [].
Proof.
  unfold validate. destruct (cycleIssues _ _) as [cyc|] eqn:Hcyc; [|done].
  intros [= <-] Hin.
  unfold noTriggerIssues in Hin. destruct (triggerNodes (g_nodes g)); [done|].
  exfalso. simpl in Hin.
  unfold isolatedIssues, conditionIssues, disabledCriticalIssues in Hin.
  rewrite !elem_of_app, !list_elem_of_fmap in Hin.
  destruct Hin as [(m & [=] & _)|[(m & [=] & _)|[Hin|(m & [=] & _)]]].
  destruct cyc as [|i cyc]; [by apply elem_of_nil in Hin|].
  apply cycleIssues_cons_cycle in Hcyc as ((m & _ & ->) & -> & _).
  apply list_elem_of_singleton in Hin. discriminate Hin.
Qed.

Lemma enabledTriggerNodes_of_triggerNodes (nds : list Node) :
  triggerNodes nds = [] → enabledTriggerNodes nds = [].
Proof.
  unfold triggerNodes, enabledTriggerNodes.
  induction nds as [|m nds IH]; simpl; [done|].
  destruct (type_is "trigger" m); [done|]. simpl. apply IH.
Qed.

(** C1 as stated: with validation enabled, the gate blocks exactly when
    [validate] reports an error. *)
Definition gate_blocks_iff_errors : Prop :=
  ∀ (settings : Settings) (g : Graph) (issues : list ValidationIssue),
    enableValidation settings = true →
    validate g = Some issues →
    (runGate settings (g_nodes g) = true ↔ 0 < errorCount issues).

(** A graph with an enabled trigger and a cycle: [validate] reports the
    cycle error, and the gate lets the run through. *)
Lemma gate_ignores_cycle_error : ¬ gate_blocks_iff_errors.
Proof.
  intros H.
  specialize (H Sample.settings Sample.cyclic
                [cycleIssue (Sample.node "t" "trigger")] eq_refl validate_cyclic).
  destruct H as [_ H]. by specialize (H ltac:(vm_compute; lia)).
Qed.

(** The other direction fails as well: a graph whose only trigger is
    disabled has no error, and the gate blocks it. *)
Lemma gate_blocks_without_error :
  validate Sample.disabledTrigger
  = Some [disabledCriticalIssue (Sample.disabledNode "t" "trigger")]
  ∧ errorCount [disabledCriticalIssue (Sample.disabledNode "t" "trigger")] = 0
  ∧ runGate Sample.settings (g_nodes Sample.disabledTrigger) = true.
Proof. split; [apply validate_disabledTrigger|]. by vm_compute. Qed.

(** C1, amended.  [executeWorkflow] returns before anything is executed,
    leaving builder and engine as they are, exactly when validation is
    enabled in the settings and no listed node is a trigger that is not
    disabled; the issues of [validate] are not consulted.  A graph for
    which [validate] reports the no-trigger error is blocked when
    validation is enabled. *)
Theorem executeWorkflow_blocked_iff {E} {engine : workflowEngine.t E}
    (r s : Builder) (e : E) :
  (outcome_of (executeWorkflow r s e) = RunBlocked
   ↔ enableValidation (workflowSettings r) = true
     ∧ ∀ n, n ∈ nodes r →
            ¬ (Node.type n = Some "trigger"
               ∧ Node.enabled (Node.data n) ≠ Some false))
  ∧ (outcome_of (executeWorkflow r s e) = RunBlocked →
     executeWorkflow r s e = (RunBlocked, s, e))
  ∧ (outcome_of (executeWorkflow r s e) = RunBlocked
     ↔ runGate (workflowSettings r) (nodes r) = true)
  ∧ (∀ issues,
       enableValidation (workflowSettings r) = true →
       validate (graph_of r) = Some issues →
       noTriggerIssue ∈ issues →
       outcome_of (executeWorkflow r s e) = RunBlocked).
Proof.
  assert (outcome_of (executeWorkflow r s e) = RunBlocked
          ↔ runGate (workflowSettings r) (nodes r) = true) as Hgate.
  { unfold executeWorkflow, outcome_of.
    destruct (runGate _ _); [done|].
    destruct (workflowEngine.executeWorkflow _ _ _) as [[results|err] e']; done. }
  assert (runGate (workflowSettings r) (nodes r) = true
          ↔ enableValidation (workflowSettings r) = true
            ∧ enabledTriggerNodes (nodes r) = []) as Hrun.
  { unfold runGate. rewrite andb_true_iff, Nat.eqb_eq.
    split; intros [H1 H2]; split; try done.
    - by destruct (enabledTriggerNodes _).
    - by rewrite H2. }
  split; [by rewrite Hgate, Hrun, enabledTriggerNodes_nil|].
  split.
  { rewrite Hgate. unfold executeWorkflow. by intros ->. }
  split; [done|].
  intros issues Hen Hv Hin. apply Hgate, Hrun. split; [done|].
  apply enabledTriggerNodes_of_triggerNodes.
  by apply (noTriggerIssue_in_validate (graph_of r) issues).
Qed.

(** ** History *)

Definition snapshot_of (s : Builder) : Snapshot :=
  {| Snapshot.nodes := nodes s; Snapshot.edges := edges s |}.

Lemma slice_prefix {A} (l : list A) (k : Z) :
  (0 ≤ k)%Z → slice l 0 k = take (Z.to_nat k) l.
Proof.
  intros Hk. unfold slice, rel_index. simpl.
  destruct (Z.ltb_spec k 0); [lia|].
  rewrite (Z.min_l 0) by lia. rewrite drop_0, Z.sub_0_r.
  destruct (Z.min_spec k (Z.of_nat (length l))) as [[_ ->]|[Hle ->]]; [done|].
  rewrite Nat2Z.id, !take_ge by lia. done.
Qed.

Lemma slice_from_last {A} (l : list A) (n : nat) :
  0 < n → slice_from l (- Z.of_nat n) = drop (length l - n) l.
Proof.
  intros Hn. unfold slice_from, slice, rel_index.
  destruct (Z.ltb_spec (- Z.of_nat n) 0); [|lia].
  destruct (Z.ltb_spec (Z.of_nat (length l)) 0); [lia|].
  rewrite Z.min_id.
  replace (Z.to_nat (Z.max (Z.of_nat (length l) + - Z.of_nat n) 0))
    with (length l - n) by lia.
  apply take_ge. rewrite length_drop. lia.
Qed.

(** The history and the index after [saveToHistory], for a closure whose
    index is at least -1. *)
Lemma saveToHistory_history (r s : Builder) :
  (-1 ≤ historyIndex r)%Z →
  history (saveToHistory r s)
  = drop (length (take (Z.to_nat (historyIndex r + 1)) (history s) ++ [snapshot_of r]) - 50)
         (take (Z.to_nat (historyIndex r + 1)) (history s) ++ [snapshot_of r]).
Proof.
  intros Hidx. unfold saveToHistory. simpl.
  rewrite slice_prefix by lia.
  by rewrite (slice_from_last _ 50) by lia.
Qed.

Lemma saveToHistory_frame (r s : Builder) :
  nodes (saveToHistory r s) = nodes s
  ∧ edges (saveToHistory r s) = edges s
  ∧ historyIndex (saveToHistory r s) = (historyIndex s + 1)%Z.
Proof. done. Qed.

(** The stack never holds more than 50 snapshots. *)
Lemma saveToHistory_bounded (r s : Builder) :
  length (history (saveToHistory r s)) ≤ 50.
Proof.
  unfold saveToHistory. simpl.
  rewrite (slice_from_last _ 50) by lia. rewrite length_drop. lia.
Qed.

(** X27. A push from an up-to-date closure (the closure's index is the
    state's, and it is at least -1, as in every state reached by edits, undo
    and redo) keeps the entries up to the current index, drops every entry
    after it, appends the closure's snapshot and keeps the last 50 entries
    of the result; the index moves up by one, the graph is untouched, and
    nothing is left to redo. *)
Theorem saveToHistory_linear (r s : Builder) :
  (-1 ≤ historyIndex r)%Z →
  historyIndex s = historyIndex r →
  let kept := take (Z.to_nat (historyIndex r + 1)) (history s) in
  let appended := kept ++ [snapshot_of r] in
  let s' := saveToHistory r s in
  history s' = drop (length appended - 50) appended
  ∧ length (history s') ≤ 50
  ∧ historyIndex s' = (historyIndex r + 1)%Z
  ∧ nodes s' = nodes s ∧ edges s' = edges s
  ∧ canRedo s' = false
  ∧ fire redo s' = Done s'.
Proof.
  intros Hidx Heq kept appended s'.
  assert (history s' = drop (length appended - 50) appended) as Hh
    by by apply saveToHistory_history.
  assert (historyIndex s' = (historyIndex r + 1)%Z) as Hi
    by (unfold s'; simpl; lia).
  assert (canRedo s' = false) as Hredo.
  { unfold canRedo. rewrite Hh, Hi, length_drop. unfold appended, kept.
    rewrite length_app, length_take. simpl. apply Z.ltb_ge. lia. }
  split; [done|]. split; [apply saveToHistory_bounded|].
  split; [done|]. split; [done|]. split; [done|]. split; [done|].
  unfold fire, redo. unfold canRedo in Hredo. by rewrite Hredo.
Qed.

(** Sample sessions: a builder that starts with one trigger node, and
    [n] toolbar additions fired one after the other. *)
Module Session.
Definition s0 : Builder :=
  initialBuilder [Sample.node "t" "trigger"] [] Sample.settings.

Fixpoint addNodes (n : nat) (s : Builder) : Builder :=
  match n with
  | O => s
  | S k => fire (fun r => onAddNode r "action" (Z.of_nat k)) (addNodes k s)
  end.

Definition done_or {A} (d : A) (o : Outcome A) : A :=
  match o with
  | Done a => a
  | Throws _ => d
  end.

(** Three additions, then two undos. *)
Definition undone : Builder :=
  done_or s0 (repeat_fire undo 2 (addNodes 3 s0)).
End Session.

Lemma saveToHistory_linear_witness :
  (-1 ≤ historyIndex Session.undone)%Z
  ∧ historyIndex Session.undone = historyIndex Session.undone
  ∧ let kept := take (Z.to_nat (historyIndex Session.undone + 1))
                     (history Session.undone) in
    let appended := kept ++ [snapshot_of Session.undone] in
    let s' := saveToHistory Session.undone Session.undone in
    history s' = drop (length appended - 50) appended
    ∧ length (history s') ≤ 50
    ∧ historyIndex s' = (historyIndex Session.undone + 1)%Z
    ∧ nodes s' = nodes Session.undone ∧ edges s' = edges Session.undone
    ∧ canRedo s' = false
    ∧ fire redo s' = Done s'.
Proof.
  assert (-1 ≤ historyIndex Session.undone)%Z as H by (by vm_compute).
  split; [exact H|]. split; [reflexivity|].
  exact (saveToHistory_linear Session.undone Session.undone H eq_refl).
Defined.

(** Before the push there were two entries to redo; after it there is none. *)
Example push_after_undo_drops_redo :
  length (history Session.undone) = 3
  ∧ historyIndex Session.undone = 0%Z
  ∧ canRedo Session.undone = true
  ∧ length (history (fire saveToHistory Session.undone)) = 2
  ∧ canRedo (fire saveToHistory Session.undone) = false.
Proof. by vm_compute. Qed.

(** After one push on an empty history [undo] does nothing, whatever the
    snapshot that was pushed. *)
Lemma undo_after_first_push (r s : Builder) :
  historyIndex s = (-1)%Z →
  fire undo (saveToHistory r s) = Done (saveToHistory r s).
Proof. intros H. unfold fire, undo. simpl. by rewrite H. Qed.

(** The index after [n] additions, and the length of the stack. *)
Lemma addNodes_history (n : nat) (s : Builder) :
  history s = [] → historyIndex s = (-1)%Z →
  historyIndex (Session.addNodes n s) = (Z.of_nat n - 1)%Z
  ∧ length (history (Session.addNodes n s)) = n `min` 50.
Proof.
  intros Hh Hi. induction n as [|n [IHi IHl]].
  - simpl. rewrite Hh, Hi. done.
  - cbn [Session.addNodes]. unfold fire, onAddNode.
    set (t := Session.addNodes n s) in *.
    set (t' := setNodes _ t).
    assert (historyIndex t' = historyIndex t) as Hi' by done.
    assert (history t' = history t) as Hh' by done.
    destruct (saveToHistory_frame t t') as (_ & _ & ->).
    split; [lia|].
    rewrite saveToHistory_history by lia.
    rewrite length_drop, length_app, length_take, Hh'. simpl. lia.
Qed.

(** C4 (the code at the failing input).  After 60 additions the stack holds
    50 snapshots while the index stands at 59: the toolbar offers undo, and
    [undo] reads an entry beyond the stack and throws; no snapshot is
    restored. *)
Theorem undo_after_60_mutations_throws :
  let s := Session.addNodes 60 Session.s0 in
  length (history s) = 50
  ∧ historyIndex s = 59%Z
  ∧ canUndo s = true
  ∧ index (history s) (historyIndex s - 1) = None
  ∧ fire undo s
    = Throws (TypeError "Cannot read properties of undefined (reading 'nodes')").
Proof.
  pose proof (addNodes_history 60 Session.s0 eq_refl eq_refl) as [Hi Hl].
  change (60 `min` 50) with 50 in Hl. change (Z.of_nat 60 - 1)%Z with 59%Z in Hi.
  cbv zeta. revert Hi Hl. generalize (Session.addNodes 60 Session.s0).
  intros s Hi Hl.
  assert (index (history s) (historyIndex s - 1) = None) as Hidx.
  { rewrite Hi. unfold index. simpl. apply lookup_ge_None. lia. }
  split; [done|]. split; [done|].
  split; [unfold canUndo; by rewrite Hi|]. split; [done|].
  unfold fire, undo. rewrite Hidx. by rewrite Hi.
Qed.

(** C3 (the code at the failing inputs).  One addition on an empty history:
    [undo] does nothing and the graph stays as edited.  Two additions: two
    undos restore the initial graph, and the two redos that follow stop at
    the graph before the second addition. *)
Theorem undo_redo_after_edits :
  let s1 := Session.addNodes 1 Session.s0 in
  let s2 := Session.addNodes 2 Session.s0 in
  (repeat_fire undo 1 s1 = Done s1 ∧ nodes s1 ≠ nodes Session.s0)
  ∧ ∃ u v,
      repeat_fire undo 2 s2 = Done u
      ∧ nodes u = nodes Session.s0 ∧ edges u = edges Session.s0
      ∧ repeat_fire redo 2 u = Done v
      ∧ nodes v = nodes s1
      ∧ nodes v ≠ nodes s2.
Proof.
  intros s1 s2. split; [split; [reflexivity|by vm_compute]|].
  eexists _, _. split; [vm_compute; reflexivity|].
  split; [reflexivity|]. split; [reflexivity|].
  split; [vm_compute; reflexivity|]. split; [reflexivity|]. by vm_compute.
Qed.

(** ** Simulation and clearing *)

(** The runtime statuses of the listed nodes, in order. *)
Definition statuses (s : Builder) : list (string * option RuntimeStatus) :=
  map (fun n => (Node.id n, Node.status (Node.data n))) (nodes s).

(** C7. Simulating a node leaves the builder state as it was, whatever the
    engine does and for every input: in particular every node keeps its
    runtime status.  The outcome is only reported in the returned value:
    nothing for an unknown node, the engine's result when the execution
    succeeds, the failure object with the details and the input when it
    faults. *)
Theorem handleSimulateNode_keeps_status {E} {engine : workflowEngine.t E}
    (r : Builder) (nodeId : string) (inputData : JsValue) (s : Builder) (e : E) :
  let res := handleSimulateNode r nodeId inputData s e in
  res.1.2 = s
  ∧ statuses res.1.2 = statuses s
  ∧ match findNode (nodes r) nodeId with
    | None => res.1.1 = SimNull ∧ res.2 = e
    | Some node =>
        let run := workflowEngine.executeNode nodeId (type_or_action node) inputData
                     (Node.config (Node.data node)) e in
        res.2 = run.2
        ∧ match run.1 with
          | inl result => res.1.1 = SimResult result
          | inr error => res.1.1 = SimFailed error inputData
          end
    end.
Proof.
  unfold handleSimulateNode.
  destruct (findNode (nodes r) nodeId) as [node|]; [|done].
  destruct (workflowEngine.executeNode _ _ _ _ _) as [[result|error] e']; done.
Qed.

(** With the sample engine: a successful and a faulting simulation, and, for
    contrast, the step execution of the same nodes, which does write the
    status. *)
Example simulate_vs_step :
  let s := initialBuilder [Sample.node "a" "action"; Sample.node "h" "http"] []
             Sample.settings in
  (fire (fun r => handleSimulateNode r "a" (JsNum 7)) s []).1
  = (SimResult {| res_output := JsNum 7; res_executionTime := Some 5%Z |}, s)
  ∧ (fire (fun r => handleSimulateNode r "h" (JsNum 7)) s []).1
    = (SimFailed (JsStr "request failed") (JsNum 7), s)
  ∧ statuses (fire (fun r => handleStepExecution r "a" 1000) s []).1
    = [("a", Some StSuccess); ("h", Some StIdle)]
  ∧ statuses (fire (fun r => handleStepExecution r "h" 1000) s []).1
    = [("a", Some StIdle); ("h", Some StError)].
Proof. by vm_compute. Qed.

(** C8. [clearExecution], in every state: each listed node is still there,
    with status idle; the execution log is empty; [totalNodes] and
    [completedNodes] are zero; the engine is told to clear its data. *)
Theorem clearExecution_resets {E} {engine : workflowEngine.t E}
    (s : Builder) (e : E) :
  let res := clearExecution s e in
  nodes res.1 = map resetNode (nodes s)
  ∧ map Node.id (nodes res.1) = map Node.id (nodes s)
  ∧ (∀ n, n ∈ nodes res.1 → Node.status (Node.data n) = Some StIdle)
  ∧ executionLog res.1 = []
  ∧ totalNodes res.1 = 0%Z
  ∧ completedNodes res.1 = 0%Z
  ∧ edges res.1 = edges s
  ∧ res.2 = workflowEngine.clearExecutionData e.
Proof.
  simpl. split; [done|]. split.
  { rewrite <- list_fmap_compose. by apply list_fmap_ext. }
  split; [|done].
  intros n (m & -> & _)%list_elem_of_fmap. done.
Qed.

Example clearExecution_after_fault :
  let s := initialBuilder [Sample.node "a" "action"; Sample.node "h" "http"] []
             Sample.settings in
  let stepped := fire (fun r => handleStepExecution r "h" 1000) s [] in
  statuses stepped.1 = [("a", Some StIdle); ("h", Some StError)]
  ∧ executionLog (fire (fun r => handleStepExecution r "a" 1000) s []).1 ≠ []
  ∧ statuses (clearExecution stepped.1 stepped.2).1
    = [("a", Some StIdle); ("h", Some StIdle)]
  ∧ (clearExecution stepped.1 stepped.2).2 = [].
Proof. by vm_compute. Qed.

(** ** Graph edits and the edge invariant *)

(** The graph-mutating callbacks, as one type of operations. *)
Inductive GraphOp :=
  | OpConnect (params : Connection)
  | OpAddNode (type : string) (now : Z)
  | OpDeleteNode (nodeId : string)
  | OpDuplicateNode (nodeId : string) (now : Z)
  | OpApplyTemplate (template : Template)
  | OpDeleteSelected
  | OpToggleEnable (nodeId : string).

Definition applyOp (op : GraphOp) (r s : Builder) : Builder :=
  match op with
  | OpConnect params => onConnect r params s
  | OpAddNode type now => onAddNode r type now s
  | OpDeleteNode nodeId => onDeleteNode r nodeId s
  | OpDuplicateNode nodeId now => onDuplicateNode r nodeId now s
  | OpApplyTemplate template => onApplyTemplate r template s
  | OpDeleteSelected => deleteSelectedNodes r s
  | OpToggleEnable nodeId => onToggleNodeEnable r nodeId s
  end.


Definition graph_ok (s : Builder) : Prop := endpoints_present (nodes s) (edges s).



Lemma elem_of_List_filter {A} (p : A → bool) (l : list A) (a : A) :
  a ∈ List.filter p l ↔ a ∈ l ∧ p a = true.
Proof. by rewrite !list_elem_of_In, filter_In. Qed.

Lemma includes_spec (l : list string) (i : string) :
  includes l i = true ↔ i ∈ l.
Proof.
  unfold includes. rewrite existsb_exists. split.
  - intros (j & Hj%list_elem_of_In & Heq%String.eqb_eq). by subst.
  - intros Hi. exists i. split; [by apply list_elem_of_In|apply String.eqb_refl].
Qed.







(** ** Duplicating a node *)






(** An unknown id: nothing is duplicated and nothing is pushed. *)
Lemma onDuplicateNode_unknown (r s : Builder) (nodeId : string) (now : Z) :
  findNode (nodes r) nodeId = None → onDuplicateNode r nodeId now s = s.
Proof. intros H. unfold onDuplicateNode. by rewrite H. Qed.

(** ** Sessions: sequences of edits, undo and redo *)

(** The states a session can reach from [s0].  An operation may run from
    the closure of any earlier render ([onConnect] does). *)
Inductive reachable (s0 : Builder) : Builder → Prop :=
  | reach_init : reachable s0 s0
  | reach_op op r s : reachable s0 s → reachable s0 r → reachable s0 (applyOp op r s)
  | reach_undo s s' : reachable s0 s → fire undo s = Done s' → reachable s0 s'
  | reach_redo s s' : reachable s0 s → fire redo s = Done s' → reachable s0 s'.

Lemma applyOp_historyIndex (op : GraphOp) (r s : Builder) :
  (historyIndex s ≤ historyIndex (applyOp op r s))%Z.
Proof.
  destruct op; simpl; try lia.
  - unfold onDeleteNode. simpl.
    destruct (selectedNode r) as [sel|]; [destruct (String.eqb _ _)|]; simpl; lia.
  - unfold onDuplicateNode. destruct (findNode _ _); simpl; lia.
Qed.

(** X8. In every state a session can reach (edits, also from the closure of
    an earlier render, undo and redo) the index never drops below -1, and
    the stack never exceeds 50 entries. *)
Lemma reachable_invariant (s0 s : Builder) :
  (-1 ≤ historyIndex s0)%Z → length (history s0) ≤ 50 →
  reachable s0 s →
  (-1 ≤ historyIndex s)%Z ∧ length (history s) ≤ 50.
Proof.
  intros H0 L0 Hr. induction Hr as [|op r s Hs [IHs IHl] Hr' _|s s' Hs [IHs IHl] Hu|s s' Hs [IHs IHl] Hu].
  - done.
  - split; [pose proof (applyOp_historyIndex op r s); lia|].
    destruct op; simpl; try apply saveToHistory_bounded.
    unfold onDuplicateNode. destruct (findNode _ _); [apply saveToHistory_bounded|done].
  - unfold fire, undo in Hu. destruct (Z.ltb_spec 0 (historyIndex s)).
    + destruct (index _ _); [|done]. injection Hu as <-. simpl. split; [lia|done].
    + by injection Hu as <-.
  - unfold fire, redo in Hu.
    destruct (Z.ltb_spec (historyIndex s) (Z.of_nat (length (history s)) - 1)).
    + destruct (index _ _); [|done]. injection Hu as <-. simpl. split; [lia|done].
    + by injection Hu as <-.
Qed.

(** An edit with an up-to-date closure: some change [f] to the state that
    leaves the history alone, then [saveToHistory]. *)
Definition editWith (f : Builder → Builder) (r s : Builder) : Builder :=
  saveToHistory r (f s).

Definition keeps_history (f : Builder → Builder) : Prop :=
  ∀ s, history (f s) = history s ∧ historyIndex (f s) = historyIndex s.

Fixpoint runEdits (fs : list (Builder → Builder)) (s : Builder) : Builder :=
  match fs with
  | [] => s
  | f :: fs' => runEdits fs' (fire (editWith f) s)
  end.










(** The change an operation makes before it pushes, read with an up-to-date
    closure. *)
Definition opChange (op : GraphOp) (s : Builder) : Builder :=
  match op with
  | OpConnect params => setEdges (fun eds => addEdge params eds) s
  | OpAddNode type now =>
      setNodes (fun nds => nds ++ [newNodeOf type {| x := 100; y := 100 |} now]) s
  | OpDeleteNode nodeId =>
      let s2 :=
        setEdges
          (List.filter (fun e => negb (String.eqb (Edge.source e) nodeId)
                                 && negb (String.eqb (Edge.target e) nodeId)))
          (setNodes (List.filter (fun n => negb (String.eqb (Node.id n) nodeId))) s) in
      setSelectedNodes (List.filter (fun i => negb (String.eqb i nodeId)))
        match selectedNode s with
        | Some sel => if String.eqb (Node.id sel) nodeId
                      then setSelectedNode (fun _ => None) s2 else s2
        | None => s2
        end
  | OpDuplicateNode nodeId now =>
      match findNode (nodes s) nodeId with
      | Some n => setNodes (fun nds => nds ++ [duplicateOf n now]) s
      | None => s
      end
  | OpApplyTemplate template =>
      setSelectedNode (fun _ => None)
        (setEdges (fun _ => t_edges template)
           (setNodes (fun _ => t_nodes template) s))
  | OpDeleteSelected =>
      let sel := selectedNodes s in
      setSelectedNode (fun _ => None)
        (setSelectedNodes (fun _ => [])
           (setEdges
              (List.filter (fun e => negb (includes sel (Edge.source e))
                                     && negb (includes sel (Edge.target e))))
              (setNodes (List.filter (fun n => negb (includes sel (Node.id n)))) s)))
  | OpToggleEnable nodeId =>
      setNodes
        (map (fun n => if String.eqb (Node.id n) nodeId then toggleEnabled n else n))
        s
  end.

(** Every operation fired in the latest render is such an edit; the only
    exception is the duplication of an unknown id, which pushes nothing. *)
Lemma fire_applyOp_editWith (op : GraphOp) (s : Builder) :
  (∀ nodeId now, op = OpDuplicateNode nodeId now →
                 is_Some (findNode (nodes s) nodeId)) →
  keeps_history (opChange op)
  ∧ fire (applyOp op) s = fire (editWith (opChange op)) s.
Proof.
  intros Hdup. split.
  - intros t. destruct op; simpl; try done.
    + destruct (selectedNode t) as [sel|]; [destruct (String.eqb _ _)|]; done.
    + by destruct (findNode _ _).
  - unfold fire, editWith. destruct op; simpl; try done.
    unfold onDuplicateNode. destruct (Hdup nodeId now eq_refl) as [n ->]. done.
Qed.

(** * Further properties of the validation *)

(** A listed node reaches a cycle: some id reachable from it along the
    edges lies on a cycle. *)
Definition reaches_cycle (eds : list Edge) (v : string) : Prop :=
  ∃ w, rtc (edge_step eds) v w ∧ tc (edge_step eds) w w.

Definition is_condition_warning (i : ValidationIssue) : bool :=
  issue_has_type IssueWarning i && String.prefix "condition-no-output-" (Issue.id i).

Definition is_no_trigger_error (i : ValidationIssue) : bool :=
  issue_has_type IssueError i && String.eqb (Issue.id i) "no-trigger".

Section CycleReach.
Variable edges : list Edge.

Local Abbreviation step := (edge_step edges).

(** A call that answers [true] has found a cycle its argument reaches. *)
Definition call_true_reaches
    (call : string -> DfsState -> option (bool * DfsState)) : Prop :=
  ∀ v st st',
    call v st = Some (true, st') →
    dfs_inv edges st →
    (∀ s, s ∈ recursionStack st → tc step s v) →
    reaches_cycle edges v.

Lemma forOutgoing_true_reaches call (es : list Edge) :
  call_ok edges call → call_true_reaches call →
  ∀ st st',
    forOutgoing call es st = Some (true, st') →
    dfs_inv edges st →
    (∀ e s, e ∈ es → s ∈ recursionStack st → tc step s (Edge.target e)) →
    ∃ e, e ∈ es ∧ reaches_cycle edges (Edge.target e).
Proof.
  intros Hok Htrue. induction es as [|e es IH]; intros st st' Hrun Hinv Hreach.
  - done.
  - simpl in Hrun.
    destruct (call (Edge.target e) st) as [[[] st1]|] eqn:Hc; [| |done].
    + exists e. split; [by left|].
      apply (Htrue _ _ _ Hc Hinv). intros s Hs. apply Hreach; [by left|done].
    + destruct (Hok _ _ _ _ Hc Hinv) as (Hinv1 & Hstk1 & _).
      { intros s Hs. apply Hreach; [by left|done]. }
      destruct (IH st1 st' Hrun Hinv1) as (e' & He' & Hcyc).
      { intros e' s He' Hs. rewrite Hstk1 in Hs. apply Hreach; [by right|done]. }
      exists e'. split; [by right|done].
Qed.

Lemma hasCycle_true_reaches (fuel : nat) : call_true_reaches (hasCycle fuel edges).
Proof.
  induction fuel as [|fuel IH]; intros v st st' Hrun Hinv Hreach; [done|].
  simpl in Hrun.
  case_bool_decide as Hstk.
  { exists v. split; [apply rtc_refl|by apply Hreach]. }
  case_bool_decide as Hvis; [done|].
  set (st1 := {| visited := {[v]} ∪ visited st;
                 recursionStack := {[v]} ∪ recursionStack st |}) in *.
  assert (Hinv1 : dfs_inv edges st1).
  { destruct Hinv as [H1 H2 H3]. split; simpl.
    - set_solver.
    - intros b c [Hb Hnb] Hbc. simpl in *.
      assert (finished st b) as Hfb by (split; set_solver).
      destruct (H2 b c Hfb Hbc) as [Hc1 Hc2].
      split; simpl; set_solver.
    - intros b [Hb Hnb]. simpl in *. apply H3. split; set_solver. }
  destruct (forOutgoing (hasCycle fuel edges) (outgoingEdges edges v) st1)
    as [[[] st2]|] eqn:Hloop; [|done|done].
  destruct (forOutgoing_true_reaches _ _ (hasCycle_ok edges fuel) IH _ _ Hloop Hinv1)
    as (e & [He Hsrc]%outgoingEdges_spec & w & Hew & Hw).
  { intros e s [He Hsrc]%outgoingEdges_spec Hs. simpl in Hs.
    assert (step v (Edge.target e)) as Hstep by (by exists e).
    apply elem_of_union in Hs as [->%elem_of_singleton|Hs].
    - by apply tc_once.
    - eapply tc_r; [by apply Hreach|done]. }
  exists w. split; [|done].
  eapply rtc_l; [|exact Hew]. by exists e.
Qed.
End CycleReach.

(** The outer loop stops at the first listed node that reaches a cycle. *)
Lemma cycleScan_first (fuel : nat) (eds : list Edge) (ns : list Node) :
  ∀ st l,
    cycleScan fuel eds ns st = Some l →
    dfs_inv eds st → recursionStack st = ∅ →
    (l = [] ∧ ∀ n, n ∈ ns → ¬ reaches_cycle eds (Node.id n))
    ∨ (∃ pre n post,
         ns = pre ++ n :: post
         ∧ (∀ m, m ∈ pre → ¬ reaches_cycle eds (Node.id m))
         ∧ reaches_cycle eds (Node.id n)
         ∧ l = [cycleIssue n]).
Proof.
  induction ns as [|n ns IH]; intros st l Hrun Hinv Hstk.
  - simpl in Hrun. injection Hrun as <-. left. split; [done|].
    intros n Hn. by apply elem_of_nil in Hn.
  - assert (∀ s, s ∈ recursionStack st → tc (edge_step eds) s (Node.id n)) as Hpre.
    { intros s Hs. rewrite Hstk in Hs. set_solver. }
    simpl in Hrun.
    destruct (hasCycle fuel eds (Node.id n) st) as [[[] st1]|] eqn:Hc; [| |done].
    + injection Hrun as <-. right. exists [], n, ns. split; [done|].
      split; [intros m Hm; by apply elem_of_nil in Hm|]. split; [|done].
      by apply (hasCycle_true_reaches eds fuel _ _ _ Hc Hinv).
    + destruct (hasCycle_ok eds fuel _ _ _ _ Hc Hinv Hpre)
        as (Hinv1 & Hstk1 & Hvis1 & Hfin1).
      rewrite Hstk in Hstk1.
      assert (¬ reaches_cycle eds (Node.id n)) as Hn.
      { intros (w & Hnw & Hw). apply (inv_acyclic _ _ Hinv1 w); [|done].
        by eapply finished_closed_rtc. }
      destruct (IH st1 l Hrun Hinv1 Hstk1)
        as [(-> & Hall)|(pre & m & post & -> & Hpre' & Hm & ->)].
      * left. split; [done|]. intros m [->|Hm]%elem_of_cons; [done|by apply Hall].
      * right. exists (n :: pre), m, post. split; [done|].
        split; [|done]. intros k [->|Hk]%elem_of_cons; [done|by apply Hpre'].
Qed.

(** The five groups of issues, in the order [validate] emits them. *)
Lemma validate_parts (g : Graph) (issues : list ValidationIssue) :
  validate g = Some issues →
  ∃ cyc,
    cycleIssues (g_nodes g) (g_edges g) = Some cyc
    ∧ (cyc = [] ∨ ∃ n, n ∈ g_nodes g ∧ cyc = [cycleIssue n])
    ∧ issues = noTriggerIssues (g_nodes g)
               ++ isolatedIssues (g_nodes g) (g_edges g)
               ++ conditionIssues (g_nodes g) (g_edges g)
               ++ cyc
               ++ disabledCriticalIssues (g_nodes g).
Proof.
  unfold validate. destruct (cycleIssues _ _) as [cyc|] eqn:Hcyc; [|done].
  intros [= <-]. exists cyc. split; [done|]. split; [|done].
  destruct cyc as [|i cyc]; [by left|right].
  apply cycleIssues_cons_cycle in Hcyc as ((n & Hn & ->) & -> & _). by exists n.
Qed.

(** X1. The cycle error of [validate] is reported for the first listed node,
    in list order, from which a cycle can be reached; when no listed node
    reaches a cycle there is no cycle error.  No assumption on the edges. *)
Theorem validate_cycle_error_first_node (g : Graph) :
  ∃ issues,
    validate g = Some issues
    ∧ ((List.filter is_cycle_error issues = []
        ∧ ∀ n, n ∈ g_nodes g → ¬ reaches_cycle (g_edges g) (Node.id n))
       ∨ (∃ pre n post,
            g_nodes g = pre ++ n :: post
            ∧ (∀ m, m ∈ pre → ¬ reaches_cycle (g_edges g) (Node.id m))
            ∧ reaches_cycle (g_edges g) (Node.id n)
            ∧ List.filter is_cycle_error issues = [cycleIssue n])).
Proof.
  destruct (validate_total g) as [issues Hv]. exists issues. split; [done|].
  destruct (validate_cycle_errors _ _ Hv) as (cyc & Hcyc & ->).
  destruct (cycleScan_first _ _ _ _ _ Hcyc (dfs_init_inv _) eq_refl)
    as [(-> & Hall)|(pre & n & post & Hn & Hpre & Hr & ->)].
  - by left.
  - right. exists pre, n, post. split; [done|]. split; [done|]. split; [done|].
    simpl. by rewrite cycleIssue_is_cycle_error.
Qed.

Lemma triggerNodes_nil (nds : list Node) :
  triggerNodes nds = [] ↔ ∀ n, n ∈ nds → Node.type n ≠ Some "trigger".
Proof.
  unfold triggerNodes. induction nds as [|m nds IH]; simpl.
  - split; [|done]. intros _ n Hn. by apply elem_of_nil in Hn.
  - destruct (type_is "trigger" m) eqn:Hm.
    + split; [done|]. intros H. exfalso.
      specialize (H m ltac:(by left)). apply type_is_false in H. congruence.
    + rewrite IH. apply type_is_false in Hm. split.
      * intros H n [->|Hn]%elem_of_cons; [done|by apply H].
      * intros H n Hn. apply H. by right.
Qed.

(** X2. The no-trigger error is among the issues exactly when no listed node
    has type trigger (a disabled trigger counts as one); it is then the
    first issue of the list, and it occurs once. *)
Theorem validate_no_trigger_exact (g : Graph) :
  ∃ issues,
    validate g = Some issues
    ∧ (noTriggerIssue ∈ issues
       ↔ ∀ n, n ∈ g_nodes g → Node.type n ≠ Some "trigger")
    ∧ (noTriggerIssue ∈ issues → ∃ rest, issues = noTriggerIssue :: rest)
    ∧ List.filter is_no_trigger_error issues
      = if bool_decide (triggerNodes (g_nodes g) = []) then [noTriggerIssue] else [].
Proof.
  destruct (validate_total g) as [issues Hv]. exists issues. split; [done|].
  destruct (validate_parts _ _ Hv) as (cyc & Hcyc & Hshape & Hiss).
  assert (triggerNodes (g_nodes g) = [] → ∃ rest, issues = noTriggerIssue :: rest)
    as Hhead.
  { intros Hnil. rewrite Hiss. unfold noTriggerIssues. rewrite Hnil. by eexists. }
  split; [|split].
  - rewrite <- triggerNodes_nil. split; [by apply noTriggerIssue_in_validate|].
    intros Hnil. destruct (Hhead Hnil) as [rest ->]. by left.
  - intros Hin. apply Hhead. by eapply noTriggerIssue_in_validate.
  - rewrite Hiss, !List.filter_app.
    unfold isolatedIssues, conditionIssues, disabledCriticalIssues.
    rewrite !filter_map_none by done.
    assert (List.filter is_no_trigger_error cyc = []) as ->.
    { destruct Hshape as [->|(n & _ & ->)]; done. }
    simpl. rewrite app_nil_r. unfold noTriggerIssues.
    case_bool_decide as Hnil; [by rewrite Hnil|].
    by destruct (triggerNodes _).
Qed.

Lemma conditionIssue_is_condition_warning (n : Node) :
  is_condition_warning (conditionIssue n) = true.
Proof.
  unfold is_condition_warning. cbn [conditionIssue Issue.id].
  by rewrite prefix_append.
Qed.

Lemma deadCondition_spec (eds : list Edge) (n : Node) :
  deadCondition eds n = true ↔ ∀ e, e ∈ eds → Edge.source e ≠ Node.id n.
Proof.
  unfold deadCondition. rewrite Nat.eqb_eq. split.
  - intros Hlen e He Hsrc.
    assert (e ∈ outgoingEdges eds (Node.id n)) as Hin by (by apply outgoingEdges_spec).
    destruct (outgoingEdges eds (Node.id n)); [by apply elem_of_nil in Hin|done].
  - intros H. destruct (outgoingEdges eds (Node.id n)) as [|e l] eqn:Hout; [done|].
    assert (e ∈ outgoingEdges eds (Node.id n)) as [He Hsrc]%outgoingEdges_spec
      by (rewrite Hout; by left).
    by destruct (H e He).
Qed.

(** X3. The dead-branch warnings of [validate] are, in order, one warning for
    each listed node of type condition that is the source of no edge.  A
    condition node that touches no edge at all is flagged twice: once as
    isolated and once as a dead branch. *)
Theorem validate_condition_warnings_exact (g : Graph) :
  ∃ issues,
    validate g = Some issues
    ∧ List.filter is_condition_warning issues
      = map conditionIssue
          (List.filter (deadCondition (g_edges g))
             (List.filter (type_is "condition") (g_nodes g)))
    ∧ (∀ n, deadCondition (g_edges g) n = true
            ↔ ∀ e, e ∈ g_edges g → Edge.source e ≠ Node.id n)
    ∧ (∀ n, n ∈ g_nodes g → Node.type n = Some "condition" →
            isolated (g_edges g) n = true →
            isolatedIssue n ∈ issues ∧ conditionIssue n ∈ issues).
Proof.
  destruct (validate_total g) as [issues Hv]. exists issues. split; [done|].
  destruct (validate_parts _ _ Hv) as (cyc & Hcyc & Hshape & Hiss).
  split; [|split; [apply deadCondition_spec|]].
  - rewrite Hiss, !List.filter_app.
    assert (List.filter is_condition_warning (noTriggerIssues (g_nodes g)) = []) as ->.
    { unfold noTriggerIssues. by destruct (triggerNodes _). }
    assert (List.filter is_condition_warning cyc = []) as ->.
    { destruct Hshape as [->|(n & _ & ->)]; done. }
    unfold isolatedIssues, conditionIssues, disabledCriticalIssues.
    rewrite (filter_map_all _ conditionIssue) by apply conditionIssue_is_condition_warning.
    rewrite !filter_map_none by done. simpl. by rewrite app_nil_r.
  - intros n Hn Hty Hiso. rewrite Hiss.
    split.
    + apply elem_of_app. right. apply elem_of_app. left.
      unfold isolatedIssues. apply list_elem_of_fmap_2.
      by apply elem_of_List_filter.
    + apply elem_of_app. right. apply elem_of_app. right. apply elem_of_app. left.
      unfold conditionIssues. apply list_elem_of_fmap_2.
      apply elem_of_List_filter. split.
      * apply elem_of_List_filter. split; [done|]. unfold type_is. by rewrite Hty.
      * apply deadCondition_spec. intros e He.
        apply isolated_spec in Hiso as [_ Hiso]. by destruct (Hiso e He).
Qed.

Lemma disabledCritical_spec (n : Node) :
  disabledCritical n = true
  ↔ Node.enabled (Node.data n) = Some false
    ∧ (Node.type n = Some "trigger" ∨ Node.type n = Some "condition").
Proof.
  unfold disabledCritical, enabled_is_false, type_is.
  rewrite andb_true_iff, orb_true_iff.
  destruct (Node.enabled (Node.data n)) as [[]|]; destruct (Node.type n) as [t|];
    rewrite ?String.eqb_eq; split; intros [H1 H2]; split; try done;
    try (destruct H2; [left|right]; congruence).
Qed.

Lemma List_filter_nil {A} (p : A → bool) (l : list A) :
  List.filter p l = [] ↔ ∀ a, a ∈ l → p a = false.
Proof.
  induction l as [|b l IH]; simpl.
  - split; [|done]. intros _ a Ha. by apply elem_of_nil in Ha.
  - destruct (p b) eqn:Hb.
    + split; [done|]. intros H. specialize (H b ltac:(by left)). congruence.
    + rewrite IH. split.
      * intros H a [->|Ha]%elem_of_cons; [done|by apply H].
      * intros H a Ha. apply H. by right.
Qed.

(** X4. Every info issue of [validate] is a disabled-critical notice, and
    there is one, in order, for each listed node whose enabled flag is
    [false] and whose type is trigger or condition; a node whose flag is
    missing is not reported. *)
Theorem validate_info_exact (g : Graph) :
  ∃ issues,
    validate g = Some issues
    ∧ List.filter (issue_has_type IssueInfo) issues
      = map disabledCriticalIssue (List.filter disabledCritical (g_nodes g))
    ∧ (∀ n, disabledCritical n = true
            ↔ Node.enabled (Node.data n) = Some false
              ∧ (Node.type n = Some "trigger" ∨ Node.type n = Some "condition")).
Proof.
  destruct (validate_total g) as [issues Hv]. exists issues. split; [done|].
  destruct (validate_parts _ _ Hv) as (cyc & Hcyc & Hshape & Hiss).
  split; [|apply disabledCritical_spec].
  rewrite Hiss, !List.filter_app.
  assert (List.filter (issue_has_type IssueInfo) (noTriggerIssues (g_nodes g)) = []) as ->.
  { unfold noTriggerIssues. by destruct (triggerNodes _). }
  assert (List.filter (issue_has_type IssueInfo) cyc = []) as ->.
  { destruct Hshape as [->|(n & _ & ->)]; done. }
  unfold isolatedIssues, conditionIssues, disabledCriticalIssues.
  rewrite (filter_map_all _ disabledCriticalIssue) by done.
  by rewrite !filter_map_none by done.
Qed.

(** X5. The severity counts: there are at most two errors (the no-trigger
    error and one cycle error), the warnings are the isolation and the
    dead-branch warnings, the infos are the disabled-critical notices, and
    the three counts add up to the number of issues. *)
Theorem validate_counts (g : Graph) :
  ∃ issues,
    validate g = Some issues
    ∧ errorCount issues
      = (if bool_decide (triggerNodes (g_nodes g) = []) then 1 else 0)
        + length (List.filter is_cycle_error issues)
    ∧ errorCount issues ≤ 2
    ∧ warningCount issues
      = length (List.filter (isolated (g_edges g)) (g_nodes g))
        + length (List.filter (deadCondition (g_edges g))
                    (List.filter (type_is "condition") (g_nodes g)))
    ∧ infoCount issues = length (List.filter disabledCritical (g_nodes g))
    ∧ errorCount issues + warningCount issues + infoCount issues = length issues.
Proof.
  destruct (validate_total g) as [issues Hv]. exists issues. split; [done|].
  destruct (validate_cycle_errors _ _ Hv) as (cyc0 & Hcyc0 & Hce).
  destruct (validate_parts _ _ Hv) as (cyc & Hcyc & Hshape & Hiss).
  assert (cyc0 = cyc) as -> by congruence.
  assert (length (noTriggerIssues (g_nodes g))
          = if bool_decide (triggerNodes (g_nodes g) = []) then 1 else 0) as Hnt.
  { unfold noTriggerIssues. case_bool_decide as Hnil; [by rewrite Hnil|].
    by destruct (triggerNodes _). }
  assert (List.filter (issue_has_type IssueError) (noTriggerIssues (g_nodes g))
          = noTriggerIssues (g_nodes g)) as He1.
  { unfold noTriggerIssues. by destruct (triggerNodes _). }
  assert (List.filter (issue_has_type IssueWarning) (noTriggerIssues (g_nodes g)) = []
          ∧ List.filter (issue_has_type IssueInfo) (noTriggerIssues (g_nodes g)) = [])
    as [Hw1 Hi1].
  { unfold noTriggerIssues. by destruct (triggerNodes _). }
  assert (List.filter (issue_has_type IssueError) cyc = cyc
          ∧ List.filter is_cycle_error cyc = cyc
          ∧ List.filter (issue_has_type IssueWarning) cyc = []
          ∧ List.filter (issue_has_type IssueInfo) cyc = []
          ∧ length cyc ≤ 1) as (He2 & Hc2 & Hw2 & Hi2 & Hl2).
  { destruct Hshape as [->|(n & _ & ->)]; simpl.
    - repeat split; try done. lia.
    - rewrite cycleIssue_is_cycle_error. repeat split; try done. }
  assert (errorCount issues = length (noTriggerIssues (g_nodes g)) + length cyc) as Herr.
  { unfold errorCount. rewrite Hiss, !List.filter_app, He1, He2.
    unfold isolatedIssues, conditionIssues, disabledCriticalIssues.
    rewrite !filter_map_none by done. rewrite !length_app. simpl. lia. }
  assert (warningCount issues
          = length (List.filter (isolated (g_edges g)) (g_nodes g))
            + length (List.filter (deadCondition (g_edges g))
                        (List.filter (type_is "condition") (g_nodes g)))) as Hwarn.
  { unfold warningCount. rewrite Hiss, !List.filter_app, Hw1, Hw2.
    unfold isolatedIssues, conditionIssues, disabledCriticalIssues.
    rewrite (filter_map_all _ isolatedIssue), (filter_map_all _ conditionIssue) by done.
    rewrite filter_map_none by done. rewrite !length_app, !length_map. simpl. lia. }
  assert (infoCount issues = length (List.filter disabledCritical (g_nodes g))) as Hinfo.
  { unfold infoCount. rewrite Hiss, !List.filter_app, Hi1, Hi2.
    unfold isolatedIssues, conditionIssues, disabledCriticalIssues.
    rewrite (filter_map_all _ disabledCriticalIssue) by done.
    rewrite !filter_map_none by done. rewrite !length_app, !length_map. simpl. lia. }
  split; [by rewrite Herr, Hce, Hc2, Hnt|].
  split; [rewrite Herr, Hnt; case_bool_decide; lia|].
  split; [done|]. split; [done|].
  rewrite Herr, Hwarn, Hinfo, Hiss.
  unfold isolatedIssues, conditionIssues, disabledCriticalIssues.
  rewrite !length_app, !length_map. lia.
Qed.

(** X6. [validate] returns the empty list (the panel shows the workflow as
    valid) exactly when: some listed node is a trigger; no listed node is
    isolated; every listed condition node has an outgoing edge; no listed
    node reaches a cycle; no trigger or condition node is disabled.  In
    particular an empty graph is never valid. *)
Theorem validate_empty_iff (g : Graph) :
  validate g = Some []
  ↔ (∃ n, n ∈ g_nodes g ∧ Node.type n = Some "trigger")
    ∧ (∀ n, n ∈ g_nodes g → isolated (g_edges g) n = false)
    ∧ (∀ n, n ∈ g_nodes g → Node.type n = Some "condition" →
            ∃ e, e ∈ g_edges g ∧ Edge.source e = Node.id n)
    ∧ (∀ n, n ∈ g_nodes g → ¬ reaches_cycle (g_edges g) (Node.id n))
    ∧ (∀ n, n ∈ g_nodes g → disabledCritical n = false).
Proof.
  assert (triggerNodes (g_nodes g) ≠ []
          ↔ ∃ n, n ∈ g_nodes g ∧ Node.type n = Some "trigger") as Htrig.
  { unfold triggerNodes. split.
    - intros Hne. destruct (List.filter _ _) as [|n l] eqn:Hf; [done|].
      assert (n ∈ List.filter (type_is "trigger") (g_nodes g)) as [Hn Ht]%elem_of_List_filter
        by (rewrite Hf; by left).
      exists n. split; [done|]. unfold type_is in Ht.
      destruct (Node.type n) as [ty|]; [|done]. by apply String.eqb_eq in Ht as ->.
    - intros (n & Hn & Ht) Hnil.
      apply (proj1 (List_filter_nil _ _)) with (a := n) in Hnil; [|done].
      unfold type_is in Hnil. by rewrite Ht in Hnil. }
  assert (∀ n, deadCondition (g_edges g) n = false
               ↔ ∃ e, e ∈ g_edges g ∧ Edge.source e = Node.id n) as Hdead.
  { intros n. unfold deadCondition. rewrite Nat.eqb_neq. split.
    - intros Hne. destruct (outgoingEdges _ _) as [|e l] eqn:Hout; [done|].
      exists e. apply outgoingEdges_spec. rewrite Hout. by left.
    - intros (e & He) Hlen. apply outgoingEdges_spec in He.
      destruct (outgoingEdges _ _); [by apply elem_of_nil in He|done]. }
  destruct (validate_total g) as [issues Hv].
  destruct (validate_parts _ _ Hv) as (cyc & Hcyc & _ & Hiss).
  destruct (cycleScan_first _ _ _ _ _ Hcyc (dfs_init_inv _) eq_refl)
    as [(-> & Hall)|(pre & n & post & Hn & Hpre & Hr & ->)].
  - rewrite Hv. split.
    + intros [= ->]. symmetry in Hiss.
      apply app_eq_nil in Hiss as [H1 Hiss]. apply app_eq_nil in Hiss as [H2 Hiss].
      apply app_eq_nil in Hiss as [H3 Hiss]. simpl in Hiss.
      split. { apply Htrig. intros Hnil. unfold noTriggerIssues in H1. by rewrite Hnil in H1. }
      split. { apply List_filter_nil. unfold isolatedIssues in H2.
               by apply fmap_nil_inv in H2. }
      split. { intros m Hm Hty. apply Hdead.
               unfold conditionIssues in H3. apply fmap_nil_inv in H3.
               apply (proj1 (List_filter_nil _ _) H3).
               apply elem_of_List_filter. split; [done|]. unfold type_is. by rewrite Hty. }
      split; [done|].
      apply List_filter_nil. unfold disabledCriticalIssues in Hiss.
      by apply fmap_nil_inv in Hiss.
    + intros (H1 & H2 & H3 & _ & H5). f_equal. rewrite Hiss.
      apply Htrig in H1. unfold noTriggerIssues.
      destruct (triggerNodes (g_nodes g)); [done|].
      unfold isolatedIssues, conditionIssues, disabledCriticalIssues.
      rewrite (proj2 (List_filter_nil (isolated (g_edges g)) _) H2).
      rewrite (proj2 (List_filter_nil disabledCritical _) H5).
      rewrite (proj2 (List_filter_nil (deadCondition (g_edges g)) _)); [done|].
      intros m [Hm Hty]%elem_of_List_filter. apply Hdead. apply H3; [done|].
      unfold type_is in Hty. destruct (Node.type m) as [ty|]; [|done].
      by apply String.eqb_eq in Hty as ->.
  - rewrite Hv. split.
    + intros [= ->]. symmetry in Hiss.
      apply app_eq_nil in Hiss as [_ Hiss]. apply app_eq_nil in Hiss as [_ Hiss].
      apply app_eq_nil in Hiss as [_ Hiss]. done.
    + intros (_ & _ & _ & H4 & _). destruct (H4 n); [|done].
      rewrite Hn. apply elem_of_app. right. by left.
Qed.

(** * Validation and execution state *)

(** A change to nodes that keeps what [validate] reads: id, type, label and
    enabled flag. *)
Definition keeps_static (f : Node → Node) : Prop :=
  ∀ n, Node.id (f n) = Node.id n
       ∧ Node.type (f n) = Node.type n
       ∧ Node.label (Node.data (f n)) = Node.label (Node.data n)
       ∧ Node.enabled (Node.data (f n)) = Node.enabled (Node.data n).

Lemma map_filter_map {A B} (f : A → A) (p : A → bool) (h : A → B) (l : list A) :
  (∀ a, p (f a) = p a) → (∀ a, h (f a) = h a) →
  map h (List.filter p (map f l)) = map h (List.filter p l).
Proof.
  intros Hp Hh. induction l as [|a l IH]; simpl; [done|].
  rewrite Hp. destruct (p a); simpl; by rewrite ?Hh, IH.
Qed.

Lemma List_filter_map_comm {A} (f : A → A) (p : A → bool) (l : list A) :
  (∀ a, p (f a) = p a) → List.filter p (map f l) = map f (List.filter p l).
Proof.
  intros Hp. induction l as [|a l IH]; simpl; [done|].
  rewrite Hp. destruct (p a); simpl; by rewrite IH.
Qed.

Lemma cycleScan_map (f : Node → Node) (fuel : nat) (eds : list Edge)
    (ns : list Node) (st : DfsState) :
  (∀ n, Node.id (f n) = Node.id n) →
  cycleScan fuel eds (map f ns) st = cycleScan fuel eds ns st.
Proof.
  intros Hid. revert st. induction ns as [|n ns IH]; intros st; simpl; [done|].
  rewrite Hid. destruct (hasCycle _ _ _ _) as [[[] st1]|]; [|apply IH|done].
  unfold cycleIssue. by rewrite Hid.
Qed.

Lemma validate_map (f : Node → Node) (nds : list Node) (eds : list Edge) :
  keeps_static f →
  validate {| g_nodes := map f nds; g_edges := eds |}
  = validate {| g_nodes := nds; g_edges := eds |}.
Proof.
  intros Hf.
  assert (∀ n, Node.id (f n) = Node.id n) as Hid by (intros n; apply Hf).
  assert (∀ k n, type_is k (f n) = type_is k n) as Hty.
  { intros k n. unfold type_is. by rewrite (proj1 (proj2 (Hf n))). }
  assert (∀ n, label_or_id (f n) = label_or_id n) as Hlab.
  { intros n. unfold label_or_id. destruct (Hf n) as (-> & _ & -> & _). done. }
  assert (∀ n, enabled_is_false (f n) = enabled_is_false n) as Hen.
  { intros n. unfold enabled_is_false. destruct (Hf n) as (_ & _ & _ & ->). done. }
  unfold validate, cycleIssues, dfsFuel. simpl.
  rewrite length_map, (cycleScan_map f) by done.
  destruct (cycleScan _ _ _ _) as [cyc|]; [|done]. f_equal.
  assert (noTriggerIssues (map f nds) = noTriggerIssues nds) as ->.
  { unfold noTriggerIssues, triggerNodes.
    pose proof (map_filter_map f (type_is "trigger") (fun _ => tt) nds
                  (Hty "trigger") (fun _ => eq_refl)) as Hlen.
    apply (f_equal length) in Hlen. rewrite !length_map in Hlen.
    destruct (List.filter _ (map f nds)), (List.filter _ nds); done. }
  assert (isolatedIssues (map f nds) eds = isolatedIssues nds eds) as ->.
  { unfold isolatedIssues. apply map_filter_map.
    - intros n. unfold isolated. by rewrite Hid, Hty.
    - intros n. unfold isolatedIssue. by rewrite Hid, Hlab. }
  assert (disabledCriticalIssues (map f nds) = disabledCriticalIssues nds) as ->.
  { unfold disabledCriticalIssues. apply map_filter_map.
    - intros n. unfold disabledCritical. by rewrite Hen, !Hty.
    - intros n. unfold disabledCriticalIssue. by rewrite Hid, Hlab. }
  assert (conditionIssues (map f nds) eds = conditionIssues nds eds) as ->; [|done].
  unfold conditionIssues.
  rewrite (List_filter_map_comm f (type_is "condition")) by apply Hty.
  apply map_filter_map.
  - intros n. unfold deadCondition. by rewrite Hid.
  - intros n. unfold conditionIssue. by rewrite Hid, Hlab.
Qed.

(** X7. Execution never changes what the validation reports: after a step
    execution (successful, faulting or of an unknown node), after clearing
    the execution data and after a whole run, [validate] returns for the
    graph of the builder what it returned before. *)
Theorem validate_unchanged_by_execution {E} {engine : workflowEngine.t E}
    (r s : Builder) (e : E) (nodeId : string) (now : Z) :
  validate (graph_of (handleStepExecution r nodeId now s e).1) = validate (graph_of s)
  ∧ validate (graph_of (clearExecution s e).1) = validate (graph_of s)
  ∧ validate (graph_of (executeWorkflow r s e).1.2) = validate (graph_of s).
Proof.
  split; [|split].
  - unfold handleStepExecution. destruct (findNode _ _) as [node|]; [|done].
    destruct (workflowEngine.executeNode _ _ _ _ _) as [[result|err] e']; simpl;
      unfold graph_of; simpl; apply validate_map;
      intros n; by destruct (String.eqb _ _).
  - unfold clearExecution, graph_of. simpl. by apply validate_map.
  - unfold executeWorkflow. destruct (runGate _ _); [done|].
    by destruct (workflowEngine.executeWorkflow _ _ _) as [[results|err] e'].
Qed.

(** * Further callbacks of the builder *)

(** [onNodeClick]; [ctrl] is [event.ctrlKey || event.metaKey]. *)
Definition onNodeClick (node : Node) (ctrl : bool) (s : Builder) : Builder :=
  let s1 := setSelectedNode (fun _ => Some node) s in
  if ctrl then
    setSelectedNodes
      (fun prev => if includes prev (Node.id node)
                   then List.filter (fun i => negb (String.eqb i (Node.id node))) prev
                   else prev ++ [Node.id node])
      s1
  else setSelectedNodes (fun _ => [Node.id node]) s1.

(** The copy [duplicateSelectedNodes] builds for the [i]-th selected node;
    [now i] is the clock and [rnd i] the text of [Math.random()] at that
    call.  The status is kept. *)
Definition selectedCopyOf (now : nat → Z) (rnd : nat → string) (i : nat)
    (node : Node) : Node :=
  {| Node.id := tmpl (Node.type node) +:+ "-" +:+ tmpl_num (now i) +:+ "-" +:+ rnd i;
     Node.type := Node.type node;
     Node.position :=
       {| x := x (Node.position node) + 100; y := y (Node.position node) + 100 |};
     Node.draggable := Node.draggable node;
     Node.data :=
       {| Node.label := Some (tmpl (Node.label (Node.data node)) +:+ " (Copy)");
          Node.config := Node.config (Node.data node);
          Node.status := Node.status (Node.data node);
          Node.enabled := Node.enabled (Node.data node);
          Node.lastExecuted := Node.lastExecuted (Node.data node);
          Node.executionTime := Node.executionTime (Node.data node);
          Node.locked := Node.locked (Node.data node) |} |}.

(** [duplicateSelectedNodes] *)
Definition duplicateSelectedNodes (r : Builder) (now : nat → Z) (rnd : nat → string)
    (s : Builder) : Builder :=
  let nodesToDuplicate :=
    List.filter (fun n => includes (selectedNodes r) (Node.id n)) (nodes r) in
  let newNodes := imap (selectedCopyOf now rnd) nodesToDuplicate in
  saveToHistory r (setNodes (fun nds => nds ++ newNodes) s).

(** [{ ...n, draggable: !lock, data: { ...n.data, locked: lock } }] *)
Definition withLock (lock : bool) (n : Node) : Node :=
  {| Node.id := Node.id n; Node.type := Node.type n;
     Node.position := Node.position n; Node.draggable := Some (negb lock);
     Node.data :=
       {| Node.label := Node.label (Node.data n);
          Node.config := Node.config (Node.data n);
          Node.status := Node.status (Node.data n);
          Node.enabled := Node.enabled (Node.data n);
          Node.lastExecuted := Node.lastExecuted (Node.data n);
          Node.executionTime := Node.executionTime (Node.data n);
          Node.locked := Some lock |} |}.

(** [lockNodes]: no snapshot is pushed. *)
Definition lockNodes (lock : bool) (s : Builder) : Builder :=
  setNodes (map (withLock lock)) s.

(** [onDrop]; [type] is the dragged node type ([None] when the drag carries
    none), [position] the drop point in flow coordinates when the canvas and
    its instance are there. *)
Definition onDrop (r : Builder) (type : option string) (position : option XY)
    (now : Z) (s : Builder) : Builder :=
  match type with
  | None => s
  | Some t =>
      if String.eqb t "" then s
      else match position with
           | None => s
           | Some pos => saveToHistory r (setNodes (fun nds => nds ++ [newNodeOf t pos now]) s)
           end
  end.

(** * Further properties of the history *)

Lemma reachable_invariant_witness :
  let s := applyOp (OpAddNode "action" 1000) Session.s0 Session.s0 in
  (-1 ≤ historyIndex Session.s0)%Z
  ∧ length (history Session.s0) ≤ 50
  ∧ reachable Session.s0 s
  ∧ (-1 ≤ historyIndex s)%Z ∧ length (history s) ≤ 50.
Proof.
  intros s.
  assert (-1 ≤ historyIndex Session.s0)%Z as H0 by (by vm_compute).
  assert (length (history Session.s0) ≤ 50) as L0 by (simpl; lia).
  assert (reachable Session.s0 s) as Hr
    by (apply reach_op; apply reach_init).
  split; [exact H0|]. split; [exact L0|]. split; [exact Hr|].
  exact (reachable_invariant Session.s0 s H0 L0 Hr).
Defined.

Lemma index_Some_lt {A} (l : list A) (i : Z) :
  (0 ≤ i)%Z → (i < Z.of_nat (length l))%Z → is_Some (index l i).
Proof.
  intros H0 Hlt. unfold index. destruct (Z.ltb_spec i 0); [lia|].
  apply lookup_lt_is_Some. lia.
Qed.

Lemma undo_redo_collapse (s : Builder) (q : Snapshot) :
  setHistoryIndex (fun prev => prev + 1)%Z
    (setEdges (fun _ => edges s)
       (setNodes (fun _ => nodes s)
          (setHistoryIndex (fun prev => prev - 1)%Z
             (setEdges (fun _ => Snapshot.edges q)
                (setNodes (fun _ => Snapshot.nodes q) s))))) = s.
Proof.
  destruct s.
  cbv [setHistoryIndex setEdges setNodes nodes edges selectedNode selectedNodes
       isExecuting executionResults executionLog executionCount executionFlow
       history historyIndex workflowSettings currentExecutingNode totalNodes
       completedNodes].
  f_equal. lia.
Qed.

(** X9. Undo followed by redo, inside the stack ([0 < historyIndex <
    history.length]): neither throws, the stack is untouched, the index is
    back where it was, and the graph shown is the entry at that index.  The
    state is the one before the undo exactly when the graph shown then was
    that entry; a graph that was not on the stack is lost. *)
Theorem undo_then_redo (s : Builder) :
  (0 < historyIndex s)%Z →
  (historyIndex s < Z.of_nat (length (history s)))%Z →
  ∃ u v p,
    fire undo s = Done u
    ∧ fire redo u = Done v
    ∧ history u = history s ∧ history v = history s
    ∧ historyIndex u = (historyIndex s - 1)%Z
    ∧ historyIndex v = historyIndex s
    ∧ index (history s) (historyIndex s - 1) = Some (snapshot_of u)
    ∧ index (history s) (historyIndex s) = Some p
    ∧ snapshot_of v = p
    ∧ (v = s ↔ snapshot_of s = p).
Proof.
  intros Hlo Hhi.
  destruct (index_Some_lt (history s) (historyIndex s - 1)) as [q Hq]; [lia|lia|].
  destruct (index_Some_lt (history s) (historyIndex s)) as [p Hp]; [lia|lia|].
  set (u := setHistoryIndex (fun prev => prev - 1)%Z
              (setEdges (fun _ => Snapshot.edges q)
                 (setNodes (fun _ => Snapshot.nodes q) s))).
  set (v := setHistoryIndex (fun prev => prev + 1)%Z
              (setEdges (fun _ => Snapshot.edges p)
                 (setNodes (fun _ => Snapshot.nodes p) u))).
  assert (fire undo s = Done u) as Hu.
  { unfold fire, undo. destruct (Z.ltb_spec 0 (historyIndex s)); [|lia]. by rewrite Hq. }
  assert (fire redo u = Done v) as Hv.
  { unfold fire, redo. simpl.
    destruct (Z.ltb_spec (historyIndex s - 1) (Z.of_nat (length (history s)) - 1)); [|lia].
    replace (historyIndex s - 1 + 1)%Z with (historyIndex s) by lia. by rewrite Hp. }
  exists u, v, p. split; [done|]. split; [done|]. split; [done|]. split; [done|].
  split; [done|]. split; [simpl; lia|].
  split; [rewrite Hq; by destruct q|]. split; [done|].
  assert (snapshot_of v = p) as Hsv by (by destruct p).
  split; [done|].
  split.
  - intros Heq. by rewrite Heq in Hsv.
  - intros Hs. unfold v, u. rewrite <- Hs. apply undo_redo_collapse.
Qed.

Lemma undo_then_redo_witness :
  let s := Session.addNodes 3 Session.s0 in
  (0 < historyIndex s)%Z
  ∧ (historyIndex s < Z.of_nat (length (history s)))%Z
  ∧ ∃ u v,
      fire undo s = Done u ∧ fire redo u = Done v
      ∧ historyIndex v = historyIndex s
      ∧ map Node.id (nodes s) = ["t"; "action-0"; "action-1"; "action-2"]
      ∧ map Node.id (nodes u) = ["t"; "action-0"]
      ∧ map Node.id (nodes v) = ["t"; "action-0"; "action-1"].
Proof.
  intros s.
  assert (0 < historyIndex s)%Z as H1 by (by vm_compute).
  assert (historyIndex s < Z.of_nat (length (history s)))%Z as H2 by (by vm_compute).
  split; [exact H1|]. split; [exact H2|].
  destruct (undo_then_redo s H1 H2) as (u & v & p & Hu & Hv & _ & _ & _ & Hi & _).
  exists u, v. split; [exact Hu|]. split; [exact Hv|]. split; [exact Hi|].
  vm_compute in Hu. injection Hu as <-.
  vm_compute in Hv. injection Hv as <-.
  split; [reflexivity|]. split; reflexivity.
Defined.

(** The index and the size of the stack after any number of edits. *)
Lemma runEdits_index_length (fs : list (Builder → Builder)) :
  Forall keeps_history fs →
  ∀ s, (Z.of_nat (length (history s)) - 1 ≤ historyIndex s)%Z →
       length (history s) ≤ 50 →
       historyIndex (runEdits fs s) = (historyIndex s + Z.of_nat (length fs))%Z
       ∧ length (history (runEdits fs s)) = (length (history s) + length fs) `min` 50.
Proof.
  induction 1 as [|f fs Hf _ IH]; intros s Hidx Hlen; simpl.
  - split; [lia|lia].
  - destruct (Hf s) as [Hh Hi].
    set (s1 := fire (editWith f) s).
    assert (historyIndex s1 = (historyIndex s + 1)%Z) as Hi1
      by (unfold s1, fire, editWith; simpl; lia).
    assert (length (history s1) = (length (history s) + 1) `min` 50) as Hl1.
    { unfold s1, fire, editWith. rewrite saveToHistory_history by lia.
      rewrite Hh, take_ge by lia. rewrite length_drop, length_app. simpl. lia. }
    destruct (IH s1) as [IHi IHl]; [lia|lia|].
    rewrite IHi, IHl, Hi1, Hl1. split; lia.
Qed.

(** X10. Counting edits from an empty history, every edit fired in the
    latest render: after [n] edits the index is [n - 1] and the stack holds
    [min n 50] snapshots.  Up to 51 edits [undo] returns; from the 52nd
    edit on it throws. *)
Theorem undo_throws_from_52_edits (fs : list (Builder → Builder)) (s0 : Builder) :
  Forall keeps_history fs →
  history s0 = [] → historyIndex s0 = (-1)%Z →
  historyIndex (runEdits fs s0) = (Z.of_nat (length fs) - 1)%Z
  ∧ length (history (runEdits fs s0)) = length fs `min` 50
  ∧ (length fs ≤ 51 → ∃ u, fire undo (runEdits fs s0) = Done u)
  ∧ (52 ≤ length fs → ∃ err, fire undo (runEdits fs s0) = Throws err).
Proof.
  intros Hfs Hh Hi.
  destruct (runEdits_index_length fs Hfs s0) as [Hri Hrl].
  { rewrite Hh, Hi. simpl. lia. }
  { rewrite Hh. simpl. lia. }
  rewrite Hh, Hi in *. simpl in Hrl.
  set (s := runEdits fs s0) in *.
  split; [lia|]. split; [done|]. split.
  - intros Hn. unfold fire, undo.
    destruct (Z.ltb_spec 0 (historyIndex s)); [|by eexists].
    destruct (index_Some_lt (history s) (historyIndex s - 1)) as [p ->]; [lia|lia|].
    by eexists.
  - intros Hn. unfold fire, undo.
    destruct (Z.ltb_spec 0 (historyIndex s)); [|lia].
    assert (index (history s) (historyIndex s - 1) = None) as ->.
    { unfold index. destruct (Z.ltb_spec (historyIndex s - 1) 0); [done|].
      apply lookup_ge_None. lia. }
    by eexists.
Qed.

Lemma undo_throws_from_52_edits_witness :
  let fs := [opChange (OpAddNode "action" 1); opChange (OpDeleteNode "t");
             opChange (OpAddNode "email" 2)] in
  Forall keeps_history fs
  ∧ history Session.s0 = [] ∧ historyIndex Session.s0 = (-1)%Z
  ∧ historyIndex (runEdits fs Session.s0) = 2%Z
  ∧ length (history (runEdits fs Session.s0)) = 3.
Proof.
  intros fs.
  assert (Forall keeps_history fs) as Hfs.
  { repeat apply Forall_cons_2; [..|apply Forall_nil_2]; intros s; cbn;
      try done. destruct (selectedNode s) as [sel|]; [destruct (String.eqb _ _)|]; done. }
  split; [exact Hfs|]. split; [reflexivity|]. split; [reflexivity|].
  destruct (undo_throws_from_52_edits fs Session.s0 Hfs eq_refl eq_refl) as (Hi & Hl & _).
  split; [exact Hi|exact Hl].
Defined.


(** X12. [onConnect] called with a closure captured while the history was
    empty (its dependency list omits [saveToHistory], so the closure is not
    renewed when the history grows): whatever the stack held, it is replaced
    by the single snapshot of the closure's graph, while the index still
    moves up by one.  If the index was at least 1, the next undo throws. *)
Theorem onConnect_stale_closure_resets_history (r s : Builder) (params : Connection) :
  historyIndex r = (-1)%Z →
  let s' := onConnect r params s in
  history s' = [snapshot_of r]
  ∧ historyIndex s' = (historyIndex s + 1)%Z
  ∧ edges s' = addEdge params (edges s)
  ∧ nodes s' = nodes s
  ∧ ((1 ≤ historyIndex s)%Z → ∃ err, fire undo s' = Throws err).
Proof.
  intros Hr s'.
  assert (history s' = [snapshot_of r]) as Hh.
  { unfold s', onConnect. rewrite saveToHistory_history by lia. by rewrite Hr. }
  split; [done|]. split; [done|]. split; [done|]. split; [done|].
  intros Hs. unfold fire, undo.
  assert (historyIndex s' = (historyIndex s + 1)%Z) as -> by done.
  destruct (Z.ltb_spec 0 (historyIndex s + 1)); [|lia].
  rewrite Hh. unfold index.
  destruct (Z.ltb_spec (historyIndex s + 1 - 1) 0); [lia|].
  rewrite (proj2 (lookup_ge_None _ _)); [by eexists|]. simpl. lia.
Qed.

Lemma onConnect_stale_closure_resets_history_witness :
  let s := Session.addNodes 3 Session.s0 in
  let params := {| c_source := "t"; c_target := "action-0";
                   c_sourceHandle := None; c_targetHandle := None |} in
  historyIndex Session.s0 = (-1)%Z
  ∧ length (history s) = 3
  ∧ history (onConnect Session.s0 params s) = [snapshot_of Session.s0]
  ∧ historyIndex (onConnect Session.s0 params s) = 3%Z
  ∧ ∃ err, fire undo (onConnect Session.s0 params s) = Throws err.
Proof.
  intros s params.
  destruct (onConnect_stale_closure_resets_history Session.s0 s params eq_refl)
    as (Hh & Hi & _ & _ & Hthrow).
  split; [reflexivity|]. split; [reflexivity|]. split; [exact Hh|].
  split; [exact Hi|]. apply Hthrow. by vm_compute.
Defined.



(** * Further properties of the graph edits *)

Lemma List_filter_all {A} (p : A → bool) (l : list A) :
  (∀ a, a ∈ l → p a = true) → List.filter p l = l.
Proof.
  induction l as [|b l IH]; intros H; simpl; [done|].
  rewrite (H b) by (by left). f_equal. apply IH. intros a Ha. apply H. by right.
Qed.

Lemma filter_out_appended (nds : list Node) (new : Node) :
  Node.id new ∉ map Node.id nds →
  List.filter (fun n => negb (String.eqb (Node.id n) (Node.id new))) (nds ++ [new]) = nds.
Proof.
  intros Hfresh. rewrite List.filter_app. simpl. rewrite String.eqb_refl. simpl.
  rewrite app_nil_r. apply List_filter_all. intros m Hm.
  apply negb_true_iff, String.eqb_neq. intros Heq. apply Hfresh. rewrite <- Heq.
  by apply list_elem_of_fmap_2.
Qed.

Lemma edges_avoid_absent_id (s : Builder) (i : string) :
  graph_ok s → i ∉ map Node.id (nodes s) →
  List.filter (fun e => negb (String.eqb (Edge.source e) i)
                        && negb (String.eqb (Edge.target e) i)) (edges s)
  = edges s.
Proof.
  intros Hok Hi. apply List_filter_all. intros e He.
  destruct (Hok e He) as [Hs Ht].
  apply andb_true_iff. split; apply negb_true_iff, String.eqb_neq; congruence.
Qed.

Lemma onDeleteNode_graph (r : Builder) (nodeId : string) (s : Builder) :
  nodes (onDeleteNode r nodeId s)
  = List.filter (fun n => negb (String.eqb (Node.id n) nodeId)) (nodes s)
  ∧ edges (onDeleteNode r nodeId s)
    = List.filter (fun e => negb (String.eqb (Edge.source e) nodeId)
                            && negb (String.eqb (Edge.target e) nodeId)) (edges s)
  ∧ historyIndex (onDeleteNode r nodeId s) = (historyIndex s + 1)%Z.
Proof.
  unfold onDeleteNode.
  destruct (selectedNode r) as [sel|]; [destruct (String.eqb _ _)|]; done.
Qed.

Lemma List_filter_id_iff {A} (p : A → bool) (l : list A) :
  List.filter p l = l ↔ ∀ a, a ∈ l → p a = true.
Proof.
  split; [|apply List_filter_all].
  intros Heq a Ha. rewrite <- Heq in Ha. by apply elem_of_List_filter in Ha as [_ Hp].
Qed.

Lemma delete_filter_nodes_id_iff (nds : list Node) (i : string) :
  List.filter (fun n => negb (String.eqb (Node.id n) i)) nds = nds
  ↔ i ∉ map Node.id nds.
Proof.
  rewrite List_filter_id_iff. split.
  - intros H (m & -> & Hm)%list_elem_of_fmap.
    specialize (H m Hm). by rewrite String.eqb_refl in H.
  - intros Hi m Hm. apply negb_true_iff, String.eqb_neq. intros Heq. apply Hi.
    rewrite <- Heq. by apply list_elem_of_fmap_2.
Qed.

Lemma delete_filter_edges_id_iff (eds : list Edge) (i : string) :
  List.filter (fun e => negb (String.eqb (Edge.source e) i)
                        && negb (String.eqb (Edge.target e) i)) eds = eds
  ↔ ∀ e, e ∈ eds → Edge.source e ≠ i ∧ Edge.target e ≠ i.
Proof.
  rewrite List_filter_id_iff. split; intros H e He; specialize (H e He).
  - apply andb_true_iff in H as [H1 H2].
    by apply negb_true_iff, String.eqb_neq in H1, H2.
  - destruct H as [H1 H2]. apply andb_true_iff.
    split; by apply negb_true_iff, String.eqb_neq.
Qed.

Lemma filter_appended_same_id (nds : list Node) (new : Node) :
  List.filter (fun n => negb (String.eqb (Node.id n) (Node.id new))) (nds ++ [new])
  = List.filter (fun n => negb (String.eqb (Node.id n) (Node.id new))) nds.
Proof.
  rewrite List.filter_app. simpl. rewrite String.eqb_refl. simpl. apply app_nil_r.
Qed.

(** X14. Adding a node from the toolbar and then deleting it by its id
    [type-now].  The nodes left are the nodes from before the addition that
    carry another id: the node list is restored exactly when no node carried
    the new id before.  The edges left are the edges from before that do not
    touch the new id: the edge list is restored exactly when no edge had it
    as source or target, which is the case when the id was fresh and the
    graph satisfied the edge invariant.  The two edits have moved the
    history index up by two. *)
Theorem add_then_delete_restores_graph (s : Builder) (type : string) (now : Z) :
  let newId := type +:+ "-" +:+ tmpl_num now in
  let s1 := fire (fun r => onAddNode r type now) s in
  let s2 := fire (fun r => onDeleteNode r newId) s1 in
  nodes s2 = List.filter (fun n => negb (String.eqb (Node.id n) newId)) (nodes s)
  ∧ (nodes s2 = nodes s ↔ newId ∉ map Node.id (nodes s))
  ∧ (edges s2 = edges s
     ↔ ∀ e, e ∈ edges s → Edge.source e ≠ newId ∧ Edge.target e ≠ newId)
  ∧ (graph_ok s → newId ∉ map Node.id (nodes s) →
     nodes s2 = nodes s ∧ edges s2 = edges s)
  ∧ historyIndex s2 = (historyIndex s + 2)%Z.
Proof.
  intros newId s1 s2.
  destruct (onDeleteNode_graph s1 newId s1) as (Hn & He & Hi).
  change (onDeleteNode s1 _ s1) with s2 in Hn, He, Hi.
  assert (nodes s1 = nodes s ++ [newNodeOf type {| x := 100; y := 100 |} now]) as Hn1
    by done.
  assert (edges s1 = edges s) as He1 by done.
  assert (nodes s2 = List.filter (fun n => negb (String.eqb (Node.id n) newId)) (nodes s))
    as Hn2.
  { rewrite Hn, Hn1.
    apply (filter_appended_same_id (nodes s) (newNodeOf type {| x := 100; y := 100 |} now)). }
  rewrite He1 in He.
  split; [done|]. split; [rewrite Hn2; apply delete_filter_nodes_id_iff|].
  split; [rewrite He; apply delete_filter_edges_id_iff|].
  split.
  - intros Hok Hfresh. split.
    + rewrite Hn2. by apply delete_filter_nodes_id_iff.
    + rewrite He. by apply edges_avoid_absent_id.
  - rewrite Hi. unfold s1, fire, onAddNode. simpl. lia.
Qed.

(** With the sample graph: a fresh id restores the nodes, and the id of a
    node that is already there takes that node away as well. *)
Example add_then_delete_samples :
  let s := initialBuilder (g_nodes Sample.diamond) (g_edges Sample.diamond)
             Sample.settings in
  let again := initialBuilder [Sample.node "http-77" "http"] [] Sample.settings in
  nodes (fire (fun r => onDeleteNode r "http-77")
           (fire (fun r => onAddNode r "http" 77) s)) = nodes s
  ∧ edges (fire (fun r => onDeleteNode r "http-77")
             (fire (fun r => onAddNode r "http" 77) s)) = edges s
  ∧ nodes (fire (fun r => onDeleteNode r "http-77")
             (fire (fun r => onAddNode r "http" 77) again)) = [].
Proof. by vm_compute. Qed.

(** X15. Duplicating a listed node and then deleting the copy by its id.
    The nodes left are the nodes from before the duplication that carry
    another id than the copy's: the node list is restored exactly when the
    copy's id was fresh, and on a collision the nodes that carried the id
    are deleted as well.  The edge list is restored exactly when no edge
    had the copy's id as source or target. *)
Theorem duplicate_then_delete_restores_graph (s : Builder) (nodeId : string)
    (now : Z) (n : Node) :
  findNode (nodes s) nodeId = Some n →
  let copyId := Node.id (duplicateOf n now) in
  let s1 := fire (fun r => onDuplicateNode r nodeId now) s in
  let s2 := fire (fun r => onDeleteNode r copyId) s1 in
  nodes s2 = List.filter (fun m => negb (String.eqb (Node.id m) copyId)) (nodes s)
  ∧ (nodes s2 = nodes s ↔ copyId ∉ map Node.id (nodes s))
  ∧ (edges s2 = edges s
     ↔ ∀ e, e ∈ edges s → Edge.source e ≠ copyId ∧ Edge.target e ≠ copyId)
  ∧ (∀ m, m ∈ nodes s2 ↔ m ∈ nodes s ∧ Node.id m ≠ copyId)
  ∧ (graph_ok s → copyId ∉ map Node.id (nodes s) →
     nodes s2 = nodes s ∧ edges s2 = edges s).
Proof.
  intros Hfind copyId s1 s2.
  destruct (onDeleteNode_graph s1 copyId s1) as (Hn & He & _).
  change (onDeleteNode s1 _ s1) with s2 in Hn, He.
  assert (nodes s1 = nodes s ++ [duplicateOf n now] ∧ edges s1 = edges s) as [Hn1 He1].
  { unfold s1, fire, onDuplicateNode. by rewrite Hfind. }
  assert (nodes s2 = List.filter (fun m => negb (String.eqb (Node.id m) copyId)) (nodes s))
    as Hn2.
  { rewrite Hn, Hn1. apply (filter_appended_same_id (nodes s) (duplicateOf n now)). }
  rewrite He1 in He.
  split; [done|]. split; [rewrite Hn2; apply delete_filter_nodes_id_iff|].
  split; [rewrite He; apply delete_filter_edges_id_iff|].
  split.
  - intros m. by rewrite Hn2, elem_of_List_filter, negb_true_iff, String.eqb_neq.
  - intros Hok Hfresh. split.
    + rewrite Hn2. by apply delete_filter_nodes_id_iff.
    + rewrite He. by apply edges_avoid_absent_id.
Qed.

Lemma duplicate_then_delete_restores_graph_witness :
  let s := initialBuilder (g_nodes Sample.diamond) (g_edges Sample.diamond)
             Sample.settings in
  findNode (nodes s) "b" = Some (Sample.node "b" "action")
  ∧ (nodes (fire (fun r => onDeleteNode r "action-5")
              (fire (fun r => onDuplicateNode r "b" 5) s)) = nodes s
     ↔ "action-5" ∉ map Node.id (nodes s))
  ∧ nodes (fire (fun r => onDeleteNode r "action-5")
             (fire (fun r => onDuplicateNode r "b" 5) s)) = nodes s.
Proof.
  intros s.
  destruct (duplicate_then_delete_restores_graph s "b" 5 (Sample.node "b" "action")
              eq_refl) as (_ & Hiff & _).
  split; [reflexivity|]. split; [exact Hiff|]. reflexivity.
Defined.

Lemma saveToHistory_last_any (r t : Builder) :
  last (history (saveToHistory r t)) = Some (snapshot_of r).
Proof.
  unfold saveToHistory. simpl. rewrite (slice_from_last _ 50) by lia.
  set (l := slice (history t) 0 (historyIndex r + 1) ++ _).
  assert (last l = Some (snapshot_of r)) as Hl by apply last_snoc.
  assert (length l ≠ 0) by (unfold l; rewrite length_app; simpl; lia).
  rewrite last_lookup in Hl. rewrite last_lookup, length_drop, lookup_drop.
  rewrite <- Hl. f_equal. lia.
Qed.

(** X16. A deletion always pushes, also when it deletes nothing.  After
    [onDeleteNode] and after [deleteSelectedNodes] the newest entry of the
    stack is the graph of the closure and the index is one higher.  The
    node list is as before exactly when no listed node carries the deleted
    id (a selected id), and the edge list exactly when no edge has it as
    source or target; with an empty selection both are as before. *)
Theorem delete_nothing_still_pushes (r s : Builder) (nodeId : string) :
  (historyIndex (onDeleteNode r nodeId s) = (historyIndex s + 1)%Z
   ∧ last (history (onDeleteNode r nodeId s)) = Some (snapshot_of r)
   ∧ (nodes (onDeleteNode r nodeId s) = nodes s ↔ nodeId ∉ map Node.id (nodes s))
   ∧ (edges (onDeleteNode r nodeId s) = edges s
      ↔ ∀ e, e ∈ edges s → Edge.source e ≠ nodeId ∧ Edge.target e ≠ nodeId))
  ∧ (historyIndex (deleteSelectedNodes r s) = (historyIndex s + 1)%Z
     ∧ last (history (deleteSelectedNodes r s)) = Some (snapshot_of r)
     ∧ (nodes (deleteSelectedNodes r s) = nodes s
        ↔ ∀ n, n ∈ nodes s → Node.id n ∉ selectedNodes r)
     ∧ (edges (deleteSelectedNodes r s) = edges s
        ↔ ∀ e, e ∈ edges s →
               (Edge.source e ∉ selectedNodes r) ∧ (Edge.target e ∉ selectedNodes r))
     ∧ (selectedNodes r = [] →
        nodes (deleteSelectedNodes r s) = nodes s
        ∧ edges (deleteSelectedNodes r s) = edges s)).
Proof.
  assert (∀ i, negb (includes (selectedNodes r) i) = true ↔ i ∉ selectedNodes r) as Hinc.
  { intros i. by rewrite negb_true_iff, <- not_true_iff_false, includes_spec. }
  split.
  - destruct (onDeleteNode_graph r nodeId s) as (-> & -> & ->).
    split; [done|]. split.
    { unfold onDeleteNode. apply saveToHistory_last_any. }
    split; [apply delete_filter_nodes_id_iff|apply delete_filter_edges_id_iff].
  - split; [done|]. split.
    { unfold deleteSelectedNodes. apply saveToHistory_last_any. }
    assert (nodes (deleteSelectedNodes r s) = nodes s
            ↔ ∀ n, n ∈ nodes s → Node.id n ∉ selectedNodes r) as Hn.
    { simpl. rewrite List_filter_id_iff.
      split; intros H n Hn; specialize (H n Hn); by apply Hinc. }
    assert (edges (deleteSelectedNodes r s) = edges s
            ↔ ∀ e, e ∈ edges s →
                   (Edge.source e ∉ selectedNodes r) ∧ (Edge.target e ∉ selectedNodes r))
      as He.
    { simpl. rewrite List_filter_id_iff.
      split; intros H e Hin; specialize (H e Hin).
      - apply andb_true_iff in H as [H1 H2]. split; by apply Hinc.
      - destruct H as [H1 H2]. apply andb_true_iff. split; by apply Hinc. }
    split; [done|]. split; [done|].
    intros Hsel. split.
    + apply Hn. intros n _. rewrite Hsel. apply not_elem_of_nil.
    + apply He. intros e _. rewrite Hsel. split; apply not_elem_of_nil.
Qed.

(** With the sample graph: an unknown id and an empty selection change
    neither nodes nor edges and push a snapshot each. *)
Example delete_nothing_samples :
  let s := initialBuilder (g_nodes Sample.diamond) (g_edges Sample.diamond)
             Sample.settings in
  nodes (onDeleteNode s "nobody" s) = nodes s
  ∧ historyIndex (onDeleteNode s "nobody" s) = 0%Z
  ∧ nodes (deleteSelectedNodes s s) = nodes s
  ∧ historyIndex (deleteSelectedNodes s s) = 0%Z
  ∧ length (history (deleteSelectedNodes s s)) = 1.
Proof. by vm_compute. Qed.

(** The nodes after [onToggleNodeEnable]. *)
Definition toggled (nodeId : string) (nds : list Node) : list Node :=
  map (fun n => if String.eqb (Node.id n) nodeId then toggleEnabled n else n) nds.

Lemma toggleEnabled_twice (n : Node) :
  Node.enabled (Node.data n) ≠ None → toggleEnabled (toggleEnabled n) = n.
Proof.
  destruct n as [i t p d [l c st en le ex lk]]. simpl. intros Hen.
  destruct en as [[]|]; done.
Qed.

(** X17. Toggling a node: every listed node with that id gets an explicit
    enabled flag, the negation of the old one, and a missing flag becomes
    [true]: the first toggle of a node without a flag does not disable it,
    and the run gate counts it as enabled before and after.  All other
    nodes and the edges are untouched.  Toggling twice restores the nodes
    when every node with that id had an explicit flag. *)
Theorem onToggleNodeEnable_flags (r s : Builder) (nodeId : string) :
  let s1 := onToggleNodeEnable r nodeId s in
  nodes s1 = toggled nodeId (nodes s)
  ∧ edges s1 = edges s
  ∧ map Node.id (nodes s1) = map Node.id (nodes s)
  ∧ (∀ i n, nodes s !! i = Some n →
       ∃ n', nodes s1 !! i = Some n'
             ∧ (Node.id n ≠ nodeId → n' = n)
             ∧ (Node.id n = nodeId →
                Node.enabled (Node.data n')
                = match Node.enabled (Node.data n) with
                  | Some b => Some (negb b)
                  | None => Some true
                  end
                ∧ (Node.enabled (Node.data n) = None →
                   enabled_is_false n = false ∧ enabled_is_false n' = false)))
  ∧ ((∀ n, n ∈ nodes s → Node.id n = nodeId → Node.enabled (Node.data n) ≠ None) →
     nodes (onToggleNodeEnable r nodeId s1) = nodes s).
Proof.
  intros s1.
  assert (nodes s1 = toggled nodeId (nodes s)) as Hn by done.
  split; [done|]. split; [done|]. split; [|split].
  - rewrite Hn. unfold toggled. rewrite map_map. apply map_ext.
    intros n. by destruct (String.eqb _ _).
  - intros i n Hi. rewrite Hn. unfold toggled.
    change (map ?f ?l) with (f <$> l). rewrite list_lookup_fmap, Hi. simpl.
    eexists. split; [done|].
    destruct (String.eqb_spec (Node.id n) nodeId) as [Heq|Hne]; split; try done.
    intros _. unfold toggleEnabled, not_enabled, enabled_is_false. simpl.
    destruct (Node.enabled (Node.data n)) as [[]|]; split; try done; by intros.
  - intros Hflags.
    assert (nodes (onToggleNodeEnable r nodeId s1) = toggled nodeId (nodes s1)) as ->
      by done.
    rewrite Hn. unfold toggled. rewrite map_map.
    rewrite <- (map_id (nodes s)) at 2. apply map_ext_in.
    intros n Hin%list_elem_of_In.
    destruct (String.eqb_spec (Node.id n) nodeId) as [Heq|Hne].
    + simpl. rewrite Heq, String.eqb_refl. apply toggleEnabled_twice.
      by apply Hflags.
    + by apply String.eqb_neq in Hne as ->.
Qed.

(** A trigger without an enabled flag (as a template may provide it): one
    toggle leaves the run gate open, the second closes it. *)
Example toggle_flagless_trigger :
  let t := {| Node.id := "t"; Node.type := Some "trigger";
              Node.position := {| x := 0; y := 0 |}; Node.draggable := None;
              Node.data := {| Node.label := None; Node.config := [];
                              Node.status := None; Node.enabled := None;
                              Node.lastExecuted := None; Node.executionTime := None;
                              Node.locked := None |} |} in
  let s := initialBuilder [t] [] Sample.settings in
  let s1 := fire (fun r => onToggleNodeEnable r "t") s in
  let s2 := fire (fun r => onToggleNodeEnable r "t") s1 in
  runGate Sample.settings (nodes s) = false
  ∧ runGate Sample.settings (nodes s1) = false
  ∧ runGate Sample.settings (nodes s2) = true
  ∧ nodes s2 ≠ nodes s.
Proof. by vm_compute. Qed.

(** X18. A step execution writes the status of the stepped node only.  Ids,
    order, edges and history are untouched and every node with another id
    is as it was; at the end no node is marked as executing.  If the engine
    returns, each node with the stepped id is marked success and the result
    is stored under that id; if it throws, each is marked error and the
    stored results and the log shown are left as they were.  The enabled
    flag is not consulted: a disabled node is executed all the same. *)
Theorem handleStepExecution_effect {E} {engine : workflowEngine.t E}
    (r : Builder) (nodeId : string) (now : Z) (s : Builder) (e : E) :
  let res := handleStepExecution r nodeId now s e in
  edges res.1 = edges s
  ∧ history res.1 = history s ∧ historyIndex res.1 = historyIndex s
  ∧ map Node.id (nodes res.1) = map Node.id (nodes s)
  ∧ currentExecutingNode res.1 = None
  ∧ (∀ i n, nodes s !! i = Some n → Node.id n ≠ nodeId → nodes res.1 !! i = Some n)
  ∧ match findNode (nodes r) nodeId with
    | None => nodes res.1 = nodes s ∧ res.2 = e
    | Some node =>
        let run := workflowEngine.executeNode nodeId (type_or_action node) (JsObj [])
                     (Node.config (Node.data node)) e in
        res.2 = run.2
        ∧ match run.1 with
          | inl result =>
              (∀ n, n ∈ nodes res.1 → Node.id n = nodeId →
                    Node.status (Node.data n) = Some StSuccess
                    ∧ Node.executionTime (Node.data n) = res_executionTime result
                    ∧ Node.lastExecuted (Node.data n) = Some now)
              ∧ executionResults res.1 !! nodeId = Some result
              ∧ executionLog res.1 = workflowEngine.getExecutionLog run.2
          | inr _ =>
              (∀ n, n ∈ nodes res.1 → Node.id n = nodeId →
                    Node.status (Node.data n) = Some StError)
              ∧ executionResults res.1 = executionResults s
              ∧ executionLog res.1 = executionLog s
          end
    end.
Proof.
  unfold handleStepExecution.
  destruct (findNode (nodes r) nodeId) as [node|].
  2:{ simpl. repeat split; done. }
  destruct (workflowEngine.executeNode _ _ _ _ _) as [[result|err] e']; simpl.
  - split; [done|]. split; [done|]. split; [done|].
    split. { rewrite map_map. apply map_ext. intros n. by destruct (String.eqb _ _). }
    split; [done|].
    split. { intros i n Hi Hne. change (map ?f ?l) with (f <$> l).
             rewrite list_lookup_fmap, Hi. simpl.
             by apply String.eqb_neq in Hne as ->. }
    split; [done|]. split; [|split; [apply lookup_insert_eq|done]].
    intros n (m & -> & Hm)%list_elem_of_fmap Hid.
    destruct (String.eqb_spec (Node.id m) nodeId) as [Heq|Hne]; [done|].
    by destruct Hne.
  - split; [done|]. split; [done|]. split; [done|].
    split. { rewrite map_map. apply map_ext. intros n. by destruct (String.eqb _ _). }
    split; [done|].
    split. { intros i n Hi Hne. change (map ?f ?l) with (f <$> l).
             rewrite list_lookup_fmap, Hi. simpl.
             by apply String.eqb_neq in Hne as ->. }
    split; [done|]. split; [|done].
    intros n (m & -> & Hm)%list_elem_of_fmap Hid.
    destruct (String.eqb_spec (Node.id m) nodeId) as [Heq|Hne]; [done|].
    by destruct Hne.
Qed.

(** X19. A run that passes the gate: the builder counts it
    ([executionCount] up by one), sets [totalNodes] to the number of nodes
    that are not disabled and [completedNodes] to zero, and ends with
    [isExecuting] false and no node marked as executing.  It never writes
    nodes, edges or history: no node status changes with a run.  If the
    engine returns, its results and its log are shown; if it throws, the
    results are empty and the log shown is the one from before. *)
Theorem executeWorkflow_bookkeeping {E} {engine : workflowEngine.t E}
    (r s : Builder) (e : E) :
  let res := executeWorkflow r s e in
  nodes res.1.2 = nodes s ∧ edges res.1.2 = edges s
  ∧ history res.1.2 = history s ∧ historyIndex res.1.2 = historyIndex s
  ∧ (runGate (workflowSettings r) (nodes r) = false →
     let run := workflowEngine.executeWorkflow (nodes r) (edges r) e in
     executionCount res.1.2 = (executionCount s + 1)%Z
     ∧ totalNodes res.1.2 = Z.of_nat (length (enabledNodes (nodes r)))
     ∧ completedNodes res.1.2 = 0%Z
     ∧ isExecuting res.1.2 = false
     ∧ currentExecutingNode res.1.2 = None
     ∧ res.2 = run.2
     ∧ match run.1 with
       | inl results =>
           res.1.1 = RunCompleted
           ∧ executionResults res.1.2 = results
           ∧ executionLog res.1.2 = workflowEngine.getExecutionLog run.2
       | inr error =>
           res.1.1 = RunFailed error
           ∧ executionResults res.1.2 = ∅
           ∧ executionLog res.1.2 = executionLog s
       end).
Proof.
  unfold executeWorkflow. destruct (runGate _ _).
  - simpl. repeat split; done.
  - destruct (workflowEngine.executeWorkflow _ _ _) as [[results|err] e']; simpl;
      repeat split; done.
Qed.

(** * Selection *)

(** X20. Clicking a node makes it the inspected node and never touches the
    graph or the history.  A plain click selects that node alone.  A click
    with Ctrl or Meta flips the membership of the node's id in the
    selection and of no other id, and a selection without repeated ids
    stays so. *)
Theorem onNodeClick_selection (node : Node) (ctrl : bool) (s : Builder) :
  let s' := onNodeClick node ctrl s in
  selectedNode s' = Some node
  ∧ nodes s' = nodes s ∧ edges s' = edges s
  ∧ history s' = history s ∧ historyIndex s' = historyIndex s
  ∧ (ctrl = false → selectedNodes s' = [Node.id node])
  ∧ (ctrl = true →
     (Node.id node ∈ selectedNodes s' ↔ Node.id node ∉ selectedNodes s)
     ∧ (∀ i, i ≠ Node.id node → (i ∈ selectedNodes s' ↔ i ∈ selectedNodes s))
     ∧ (NoDup (selectedNodes s) → NoDup (selectedNodes s'))).
Proof.
  unfold onNodeClick. destruct ctrl; simpl.
  2:{ repeat split; done. }
  split; [done|]. split; [done|]. split; [done|]. split; [done|]. split; [done|].
  split; [done|]. intros _.
  destruct (includes (selectedNodes s) (Node.id node)) eqn:Hinc.
  - apply includes_spec in Hinc. split; [|split].
    + rewrite elem_of_List_filter, negb_true_iff, String.eqb_neq. split; [|done].
      by intros [_ Hne].
    + intros i Hne. rewrite elem_of_List_filter, negb_true_iff, String.eqb_neq.
      split; [by intros [Hi _]|done].
    + intros Hnd. apply NoDup_ListNoDup, List.NoDup_filter. by apply NoDup_ListNoDup.
  - apply not_true_iff_false in Hinc. rewrite includes_spec in Hinc. split; [|split].
    + rewrite elem_of_app, list_elem_of_singleton. split; [done|]. intros _. by right.
    + intros i Hne. rewrite elem_of_app, list_elem_of_singleton. split; [|by left].
      by intros [Hi|Heq].
    + intros Hnd. apply NoDup_app. split; [done|]. split; [|apply NoDup_singleton].
      intros i Hi Heq%list_elem_of_singleton. by subst.
Qed.

(** X21. Selecting one node with a plain click and deleting the selection
    gives the same nodes and edges as deleting that node directly; both
    leave nothing selected that carries its id. *)
Theorem click_then_deleteSelected (node : Node) (s : Builder) :
  let viaSelection := fire deleteSelectedNodes (onNodeClick node false s) in
  let direct := fire (fun r => onDeleteNode r (Node.id node)) s in
  nodes viaSelection = nodes direct
  ∧ edges viaSelection = edges direct
  ∧ historyIndex viaSelection = historyIndex direct
  ∧ selectedNodes viaSelection = []
  ∧ (Node.id node ∉ selectedNodes direct).
Proof.
  intros viaSelection direct.
  destruct (onDeleteNode_graph s (Node.id node) s) as (Hn & He & Hi).
  change (onDeleteNode s _ s) with direct in Hn, He, Hi.
  rewrite Hn, He, Hi.
  split; [|split; [|split; [done|split; [done|]]]].
  - unfold viaSelection, fire, deleteSelectedNodes. simpl.
    apply filter_ext. intros n. unfold includes. simpl. by rewrite orb_false_r.
  - unfold viaSelection, fire, deleteSelectedNodes. simpl.
    apply filter_ext. intros n. unfold includes. simpl. by rewrite !orb_false_r.
  - unfold direct, fire, onDeleteNode.
    assert (∀ t, selectedNodes
                   (saveToHistory s
                      (setSelectedNodes
                         (List.filter (λ i, negb (String.eqb i (Node.id node)))) t))
                 = List.filter (λ i, negb (String.eqb i (Node.id node))) (selectedNodes t))
      as -> by done.
    rewrite elem_of_List_filter, negb_true_iff, String.eqb_neq. by intros [_ Hne].
Qed.

(** X22. Duplicating the selection appends one copy for each listed node
    whose id is selected, in list order, after the existing nodes; the
    edges are untouched.  Unlike the copy made by [onDuplicateNode], a copy
    keeps the runtime status of its original; its label gets the suffix
    " (Copy)" and its position is moved by (100, 100).  With nothing
    selected no node is added, and a snapshot is pushed all the same. *)
Theorem duplicateSelectedNodes_appends (r s : Builder) (now : nat → Z)
    (rnd : nat → string) :
  let picked := List.filter (fun n => includes (selectedNodes r) (Node.id n)) (nodes r) in
  let s' := duplicateSelectedNodes r now rnd s in
  nodes s' = nodes s ++ imap (selectedCopyOf now rnd) picked
  ∧ edges s' = edges s
  ∧ length (nodes s') = length (nodes s) + length picked
  ∧ historyIndex s' = (historyIndex s + 1)%Z
  ∧ (∀ n, n ∈ picked ↔ n ∈ nodes r ∧ Node.id n ∈ selectedNodes r)
  ∧ (∀ i n, picked !! i = Some n →
       ∃ c, nodes s' !! (length (nodes s) + i) = Some c
            ∧ Node.status (Node.data c) = Node.status (Node.data n)
            ∧ Node.label (Node.data c)
              = Some (tmpl (Node.label (Node.data n)) +:+ " (Copy)")
            ∧ Node.position c
              = {| x := x (Node.position n) + 100; y := y (Node.position n) + 100 |}
            ∧ Node.type c = Node.type n
            ∧ Node.id c
              = tmpl (Node.type n) +:+ "-" +:+ tmpl_num (now i) +:+ "-" +:+ rnd i)
  ∧ (selectedNodes r = [] → nodes s' = nodes s).
Proof.
  intros picked s'.
  assert (nodes s' = nodes s ++ imap (selectedCopyOf now rnd) picked) as Hn by done.
  split; [done|]. split; [done|].
  split; [by rewrite Hn, length_app, length_imap|]. split; [done|].
  split; [|split].
  - intros n. unfold picked. by rewrite elem_of_List_filter, includes_spec.
  - intros i n Hi. exists (selectedCopyOf now rnd i n). split; [|done].
    rewrite Hn, lookup_app_r by lia.
    replace (length (nodes s) + i - length (nodes s)) with i by lia.
    by rewrite list_lookup_imap, Hi.
  - intros Hsel. rewrite Hn. unfold picked. rewrite Hsel.
    rewrite (proj2 (List_filter_nil _ _)); [by rewrite app_nil_r|done].
Qed.

(** X23. Locking or unlocking the canvas sets, on every node, [draggable] to
    the negation of the argument and [locked] to the argument, whatever they
    were: the last call wins.  Ids, types, positions, statuses, edges and
    the validation result are untouched, and no snapshot is pushed, so undo
    cannot revert a lock. *)
Theorem lockNodes_last_wins (a b : bool) (s : Builder) :
  lockNodes b (lockNodes a s) = lockNodes b s
  ∧ (∀ n, n ∈ nodes (lockNodes b s) →
          Node.draggable n = Some (negb b) ∧ Node.locked (Node.data n) = Some b)
  ∧ map Node.id (nodes (lockNodes b s)) = map Node.id (nodes s)
  ∧ statuses (lockNodes b s) = statuses s
  ∧ edges (lockNodes b s) = edges s
  ∧ history (lockNodes b s) = history s
  ∧ historyIndex (lockNodes b s) = historyIndex s
  ∧ validate (graph_of (lockNodes b s)) = validate (graph_of s).
Proof.
  split; [|split; [|split; [|split; [|split; [done|split; [done|split; [done|]]]]]]].
  - unfold lockNodes. destruct s. unfold setNodes. simpl. f_equal.
    rewrite map_map. by apply map_ext.
  - intros n (m & -> & _)%list_elem_of_fmap. done.
  - unfold lockNodes. simpl. rewrite map_map. by apply map_ext.
  - unfold statuses, lockNodes. simpl. rewrite map_map. by apply map_ext.
  - unfold lockNodes, graph_of. simpl. by apply validate_map.
Qed.

(** * What is pushed, and what the toolbar offers *)

(** X24. An operation fired in the latest render (for a duplication: of
    an id that is listed) pushes the graph as it was before the operation:
    afterwards the newest entry of the stack is the graph before the edit,
    whatever the stack and the index were, and the index is one higher.
    The newest entry equals the graph the edit produced exactly when the
    edit left the nodes and the edges as they were.  (The theorem speaks of
    the newest entry only: older entries can hold the produced graph.) *)
Theorem applyOp_pushes_previous_graph (op : GraphOp) (s : Builder) :
  (∀ nodeId now, op = OpDuplicateNode nodeId now →
                 is_Some (findNode (nodes s) nodeId)) →
  let s' := fire (applyOp op) s in
  last (history s') = Some (snapshot_of s)
  ∧ historyIndex s' = (historyIndex s + 1)%Z
  ∧ (last (history s') = Some (snapshot_of s') ↔ snapshot_of s' = snapshot_of s).
Proof.
  intros Hdup s'.
  destruct (fire_applyOp_editWith op s Hdup) as [Hkeep Heq].
  assert (last (history s') = Some (snapshot_of s)) as Hlast.
  { unfold s'. rewrite Heq. unfold fire, editWith. by apply saveToHistory_last_any. }
  split; [done|]. split.
  - unfold s'. rewrite Heq. unfold fire, editWith. simpl.
    destruct (Hkeep s) as [_ ->]. done.
  - rewrite Hlast. clearbody s'. split; intros H; congruence.
Qed.

Lemma applyOp_pushes_previous_graph_witness :
  let s := Session.addNodes 2 Session.s0 in
  is_Some (findNode (nodes s) "action-1")
  ∧ last (history (fire (applyOp (OpDuplicateNode "action-1" 9)) s))
    = Some (snapshot_of s)
  ∧ map Node.id (nodes (fire (applyOp (OpDuplicateNode "action-1" 9)) s))
    = ["t"; "action-0"; "action-1"; "action-9"]
  ∧ map Node.id (nodes s) = ["t"; "action-0"; "action-1"].
Proof.
  intros s.
  assert (is_Some (findNode (nodes s) "action-1")) as Hfound
    by (vm_compute; eexists; reflexivity).
  destruct (applyOp_pushes_previous_graph (OpDuplicateNode "action-1" 9) s)
    as (Hlast & _).
  { intros nodeId now Heq. injection Heq as <- _. exact Hfound. }
  split; [exact Hfound|]. split; [exact Hlast|]. split; reflexivity.
Defined.

(** Toggling a node twice gives back a graph that an older entry of the
    stack already holds, while the newest entry holds the graph in
    between. *)
Example toggle_twice_older_entry :
  let s := Session.addNodes 1 Session.s0 in
  let s1 := fire (applyOp (OpToggleEnable "t")) s in
  let s2 := fire (applyOp (OpToggleEnable "t")) s1 in
  snapshot_of s2 = snapshot_of s
  ∧ snapshot_of s ∈ history s2
  ∧ last (history s2) = Some (snapshot_of s1)
  ∧ snapshot_of s1 ≠ snapshot_of s2.
Proof.
  vm_compute. split; [done|]. split; [|done].
  apply list_elem_of_In. vm_compute. tauto.
Qed.

(** X25. The toolbar offers undo exactly when [undo] does something: with
    [canUndo] false, [undo] returns the state as it is; with [canUndo] true
    it either moves the index down by one or throws.  The same holds for
    [canRedo] and [redo], which moves the index up by one. *)
Theorem undo_redo_buttons (s : Builder) :
  (canUndo s = false → fire undo s = Done s)
  ∧ (canUndo s = true →
     (∃ u, fire undo s = Done u ∧ historyIndex u = (historyIndex s - 1)%Z
           ∧ history u = history s)
     ∨ (∃ err, fire undo s = Throws err))
  ∧ (canRedo s = false → fire redo s = Done s)
  ∧ (canRedo s = true →
     (∃ u, fire redo s = Done u ∧ historyIndex u = (historyIndex s + 1)%Z
           ∧ history u = history s)
     ∨ (∃ err, fire redo s = Throws err))
  ∧ ((0 ≤ historyIndex s)%Z → canRedo s = true → ∃ u, fire redo s = Done u)
  ∧ ((historyIndex s ≤ Z.of_nat (length (history s)))%Z → ∃ u, fire undo s = Done u).
Proof.
  unfold canUndo, canRedo, fire, undo, redo.
  split; [by intros ->|]. split.
  { intros ->. destruct (index _ _); [left|right]; by eexists. }
  split; [by intros ->|]. split.
  { intros ->. destruct (index _ _); [left|right]; by eexists. }
  split.
  - intros H0 Hc. rewrite Hc. apply Z.ltb_lt in Hc.
    destruct (index_Some_lt (history s) (historyIndex s + 1)) as [p ->]; [lia|lia|].
    by eexists.
  - intros Hle. destruct (Z.ltb_spec 0 (historyIndex s)); [|by eexists].
    destruct (index_Some_lt (history s) (historyIndex s - 1)) as [p ->]; [lia|lia|].
    by eexists.
Qed.

(** X26. A drop that carries no node type, or that arrives while the canvas
    or its instance is missing, changes nothing and pushes nothing.  Any
    other drop appends the same node as the toolbar's add of that type at
    that time, placed at the drop point. *)
Theorem onDrop_guards (r : Builder) (type : option string) (position : option XY)
    (now : Z) (s : Builder) :
  (type = None ∨ type = Some "" ∨ position = None → onDrop r type position now s = s)
  ∧ (∀ t pos, type = Some t → t ≠ "" → position = Some pos →
       nodes (onDrop r type position now s) = nodes s ++ [newNodeOf t pos now]
       ∧ edges (onDrop r type position now s) = edges s
       ∧ historyIndex (onDrop r type position now s) = (historyIndex s + 1)%Z
       ∧ onDrop r type (Some {| x := 100; y := 100 |}) now s = onAddNode r t now s).
Proof.
  split.
  - intros [H|[H|H]]; subst; [done|done|].
    unfold onDrop. destruct type as [t|]; [|done]. by destruct (String.eqb t "").
  - intros t pos Ht Hne Hp. subst. unfold onDrop.
    apply String.eqb_neq in Hne. rewrite Hne. done.
Qed.

(** * Pushes from a stale closure *)

(** C5 (the code at the failing input).  Three additions, one undo (the
    index is 1 of a stack of 3), then a connection drawn on the canvas or a
    node dropped on it.  A push from the latest render keeps the two entries
    up to the index and appends one.  [onConnect] and [onDrop] leave
    [saveToHistory] out of their dependency lists and push from the closure
    of the first render, whose index is -1: the whole stack, the entries up
    to the current index included, is replaced by one snapshot, the index
    becomes 2, and the next undo throws. *)
Theorem stale_push_after_undo :
  let u := Session.done_or Session.s0 (repeat_fire undo 1 (Session.addNodes 3 Session.s0)) in
  let params := {| c_source := "t"; c_target := "action-0";
                   c_sourceHandle := None; c_targetHandle := None |} in
  let connected := onConnect Session.s0 params u in
  let dropped := onDrop Session.s0 (Some "email") (Some {| x := 30; y := 45 |}) 7 u in
  length (history u) = 3 ∧ historyIndex u = 1%Z
  ∧ history (fire saveToHistory u) = take 2 (history u) ++ [snapshot_of u]
  ∧ history connected = [snapshot_of Session.s0]
  ∧ take 2 (history connected) ≠ take 2 (history u)
  ∧ historyIndex connected = 2%Z
  ∧ fire undo connected
    = Throws (TypeError "Cannot read properties of undefined (reading 'nodes')")
  ∧ history dropped = [snapshot_of Session.s0]
  ∧ historyIndex dropped = 2%Z.
Proof.
  intros u params connected dropped.
  split; [reflexivity|]. split; [reflexivity|].
  split; [vm_compute; reflexivity|]. split; [vm_compute; reflexivity|].
  split; [by vm_compute|]. split; [reflexivity|].
  split; [vm_compute; reflexivity|]. split; [vm_compute; reflexivity|]. reflexivity.
Qed.
